(** * chatbot-py: failover search dispatcher, command history, chat-box pool

    Shallow embedding of
      - libs/av/tv_movie/client.py   (SearchBox, HistoryManager, SearchClient)
      - libs/chatgpt/fakeopen/client.py (ChatBox, ChatBoxPool, ChatClient)

    Conventions.
      - Python objects that are shared and mutated in place (the engine
        lists, the chat boxes) live in an explicit store and are named by
        a location; a field holding such an object holds its location.
      - Calls into collaborators outside these two files (an engine's
        [search], the monitor, the responder, the chat backend, the
        system clock) are inputs (oracles, clock readings) and outputs
        (events appended to a log).
      - [time.time()] is a float in the source; clock readings are
        rationals here and [+] is exact. *)

From Stdlib Require Import ZArith QArith Lia Lqa.
From stdpp Require Import gmap strings list fin_maps pretty.

Local Open Scope string_scope.
Local Open Scope list_scope.
Local Open Scope Z_scope.
Local Open Scope nat_scope.

(** ** Shared vocabulary *)

Definition ID := string.
Definition loc := nat.
Definition DateTime := Q.

(** Characters written with an escape in the Python source. *)
Definition nl : string := String (Ascii.ascii_of_nat 10) EmptyString.
Definition dq : string := String (Ascii.ascii_of_nat 34) EmptyString.

(** What a Python call yields: a value, or a raised exception. *)
Inductive Res (A : Type) : Type :=
| Ok (value : A)
| Raise (error : string).
Arguments Ok {A} value.
Arguments Raise {A} error.

(** [list.pop(index)]: the element and the list without it; IndexError
    when [index] is out of range. *)
Definition list_pop {A : Type} (index : nat) (l : list A) : Res (A * list A) :=
  match l !! index with
  | Some x => Ok (x, delete index l)
  | None => Raise "IndexError: pop index out of range"
  end.

(** ** libs/av/tv_movie/client.py *)

Module TvMovie.

Record ChatRequest := mkChatRequest {
  sender : ID;
  group : option ID;
  time : DateTime;
}.

Record Task := mkTask {
  keywords : string;
  request : ChatRequest;
}.

(** An engine object; [engine_id] stands for the object's identity. *)
Record Engine := mkEngine {
  engine_id : nat;
  agent : string;
}.

(** How one [await engine.search(task=task)] ends: with a code, or with
    an exception that [except Exception] catches. What that handler lets
    through (asyncio.CancelledError, KeyboardInterrupt, SystemExit) is
    not an outcome here. *)
Inductive Outcome :=
| Returns (code : Z)
| Throws (error : string).

(** The engines are external: the [n]-th call of a dispatch, made on
    [engine] for [task], ends as the oracle says. *)
Definition Oracle := nat -> Engine -> Task -> Outcome.

Inductive Event :=
| Search (index : nat) (engine : Engine) (task : Task)
| LogError
| LogWarning
| ReportSuccess (service agent : string)
| ReportFailure (service agent : string)
| ReportCrash (service : string)
| RespondMarkdown (text : string) (request : ChatRequest).

(** The store of the search side: the Python list objects holding
    engines, and everything the monitor, the logger and the responder
    have been told so far. *)
Record World := mkWorld {
  lists : gmap loc (list Engine);
  log : list Event;
}.

Definition emit (evs : list Event) (w : World) : World :=
  {| lists := lists w; log := log w ++ evs |}.

Definition store (l : loc) (engines : list Engine) (w : World) : World :=
  {| lists := <[l := engines]> (lists w); log := log w |}.

(** [Engine.CANCELLED_CODE]: the class itself is in engine.py; the value
    is the one the comment at its use in [_search] gives. *)
Definition CANCELLED_CODE : Z := -205.

(** [_respond_204]: the markdown text handed to [box.respond_markdown]. *)
Fixpoint history_lines (history : list string) : string :=
  match history with
  | [] => EmptyString
  | his :: history' => "- **" +:+ his +:+ "**" +:+ nl +:+ history_lines history'
  end.

Definition _respond_204_text (history : option (list string)) (keywords : string) : string :=
  let history := match history with None => [] | Some h => h end in
  let text := "No contents for **" +:+ dq +:+ keywords +:+ dq
              +:+ "**, you can try the following keywords:" +:+ nl in
  let text := text +:+ nl +:+ "----" +:+ nl in
  let text := text +:+ history_lines history in
  let text := text +:+ nl in
  let text := text +:+ "You can also input this command to scan TV channels:" +:+ nl in
  text +:+ nl +:+ "- **TV channels**".

Definition _respond_204 (history : option (list string)) (keywords : string)
    (request : ChatRequest) : Event :=
  RespondMarkdown (_respond_204_text history keywords) request.

Module SearchBox.

Record t := mk {
  identifier : ID;
  engines : loc;        (* self.__engines: a reference to a list object *)
}.

Definition service : string := "SearchBox".

(** How the [while] loop of [_search] is left. *)
Inductive LoopExit :=
| Cancelled                          (* return False inside the loop *)
| Done (index failed : nat).         (* break, or index reached count *)

(** The code the loop inspects, and what was logged to obtain it. *)
Definition code_of (out : Outcome) : Z :=
  match out with
  | Returns code => code
  | Throws _ => -500
  end.

Definition caught (out : Outcome) : list Event :=
  match out with
  | Returns _ => []
  | Throws _ => [LogError]
  end.

(** [while index < count]: [rest] is [all_engines[index:]], so its head
    is [all_engines[index]] and it is empty exactly when
    [index = count]. The list is not written while the loop runs. *)
Fixpoint try_engines (search : Oracle) (task : Task) (rest : list Engine)
    (index failed : nat) : LoopExit * list Event :=
  match rest with
  | [] => (Done index failed, [])
  | engine :: rest' =>
      let out := search index engine task in
      let code := code_of out in
      let called := Search index engine task :: caught out in
      if (0 <? code)%Z then
        (Done index failed, called ++ [ReportSuccess service (agent engine)])
      else if (code =? CANCELLED_CODE)%Z then
        (Cancelled, called)
      else if (code <? 0)%Z then
        let '(exit, evs) := try_engines search task rest' (S index) (S failed) in
        (exit, called ++ [LogError; ReportFailure service (agent engine)] ++ evs)
      else
        let '(exit, evs) := try_engines search task rest' (S index) failed in
        (exit, called ++ evs)
  end.

(** [async def _search(self, task)]. [history] is what
    [KeywordManager().keywords] holds. *)
Definition _search (search : Oracle) (history : option (list string))
    (self : t) (task : Task) (w : World) : Res bool * World :=
  match lists w !! engines self with
  | None => (Raise "dangling reference", w)
  | Some all_engines =>
      let count := length all_engines in
      if count =? 0 then (Ok false, emit [LogError] w)
      else
        match try_engines search task all_engines 0 0 with
        | (Cancelled, evs) => (Ok false, emit evs w)
        | (Done index failed, evs) =>
            let w := emit evs w in
            let w :=
              if index =? count
              then emit [_respond_204 history (keywords task) (request task)] w
              else w in
            if failed =? count then
              (Ok false, emit [ReportCrash service] w)
            else if (0 <? index) && (index <? count) then
              match list_pop index all_engines with
              | Ok (engine, others) =>
                  (Ok true, emit [LogWarning] (store (engines self) (engine :: others) w))
              | Raise error => (Raise error, w)
              end
            else (Ok true, w)
        end
  end.

End SearchBox.

Module HistoryManager.

Definition MAX_LENGTH : nat := 50.

Record Command := mkCommand {
  cmd_sender : ID;
  cmd_group : option ID;
  cmd_when : DateTime;
  cmd : string;
}.

(** [self.__commands] *)
Definition t := list Command.

Definition init : t := [].

Definition commands (self : t) : list Command := self.

Definition add_command (cmd : string) (when : DateTime) (sender : ID)
    (group : option ID) (self : t) : t :=
  self ++ [mkCommand sender group when cmd].

End HistoryManager.

Module SearchClient.

Record t := mk {
  engines : loc;        (* self.__engines: the master list *)
}.

(** A new list object: its location is one no list of the store has. *)
Definition alloc (content : list Engine) (w : World) : loc * World :=
  let l := fresh (dom (lists w)) in
  (l, store l content w).

(** [__init__]: [self.__engines = []] *)
Definition init (w : World) : t * World :=
  let '(l, w) := alloc [] w in
  (mk l, w).

(** [self.__engines.append(engine)] *)
Definition add_engine (engine : Engine) (self : t) (w : World) : Res unit * World :=
  match lists w !! engines self with
  | None => (Raise "dangling reference", w)
  | Some master => (Ok tt, store (engines self) (master ++ [engine]) w)
  end.

(** [engines = self.__engines.copy()], handed to the new box. *)
Definition _new_box (identifier : ID) (self : t) (w : World) : Res SearchBox.t * World :=
  match lists w !! engines self with
  | None => (Raise "dangling reference", w)
  | Some master =>
      let '(copy, w) := alloc master w in
      (Ok (SearchBox.mk identifier copy), w)
  end.

End SearchClient.

(** The client, the boxes it has made so far, and the store they live in. *)
Record System := mkSystem {
  world : World;
  client : SearchClient.t;
  made : list SearchBox.t;
}.

Inductive Op :=
| AddEngine (engine : Engine)
| NewBox (identifier : ID)
| Dispatch (k : nat) (search : Oracle) (history : option (list string)) (task : Task).

Definition boot : System :=
  let '(c, w) := SearchClient.init (mkWorld ∅ []) in
  mkSystem w c [].

Definition step (op : Op) (s : System) : System :=
  match op with
  | AddEngine engine =>
      mkSystem (SearchClient.add_engine engine (client s) (world s)).2 (client s) (made s)
  | NewBox identifier =>
      match SearchClient._new_box identifier (client s) (world s) with
      | (Ok box, w) => mkSystem w (client s) (made s ++ [box])
      | (Raise _, w) => mkSystem w (client s) (made s)
      end
  | Dispatch k search history task =>
      match made s !! k with
      | Some box =>
          mkSystem (SearchBox._search search history box task (world s)).2 (client s) (made s)
      | None => s
      end
  end.

Definition run (ops : list Op) (s : System) : System :=
  foldl (fun s op => step op s) s ops.

End TvMovie.

(** ** libs/chatgpt/fakeopen/client.py *)

(** [a < b] on clock readings, as a test. *)
Definition Qlt_bool (a b : Q) : bool := negb (Qle_bool b a).

Module FakeOpen.

(** How one [self.__gpt.ask(question=question)] ends: an answer, [None],
    or an exception. The backend is external: what it does at a call is
    an input of that call. *)
Definition Backend := string -> Res (option string).

Module ChatBox.

Definition EXPIRES : Q := 36000.  (* seconds *)

(** [self.__gpt] is the backend; the state of a box is its deadline. *)
Record t := mk {
  expired : Q;          (* self.__expired *)
}.

(** [__init__], [now] being what [time.time()] returns in it. *)
Definition init (now : Q) : t := mk (now + EXPIRES).

Definition is_expired (now : Q) (self : t) : bool :=
  Qlt_bool (expired self) now.          (* now > self.__expired *)

Definition __prepare (now : Q) (self : t) : bool * t :=
  (true, mk (now + EXPIRES)).

Definition ask (now : Q) (gpt : Backend) (question : string) (self : t)
    : Res (option string) * t :=
  let '(ready, self) := __prepare now self in
  if ready then (gpt question, self) else (Ok None, self).

End ChatBox.

Module ChatBoxPool.

(** [boxes] is [self.__boxes], the only lasting strong references to
    the boxes: each box it holds, under its identity, with its state.
    [map] is the WeakValueDictionary: it names boxes without keeping
    them alive. A box is freed when it leaves [boxes] (reference
    counting; no caller keeps a box beyond its call). [created] counts
    the boxes constructed so far and is the identity of the next one. *)
Record t := mk {
  map : gmap ID loc;
  boxes : gmap loc ChatBox.t;
  next_purge_time : Q;
  created : loc;
}.

Definition init : t := mk ∅ ∅ 0 0.

(** [WeakValueDictionary.get]: the entry's referent, if it is still
    alive. *)
Definition weak_get (identifier : ID) (self : t) : option loc :=
  match map self !! identifier with
  | Some box =>
      match boxes self !! box with
      | Some _ => Some box
      | None => None
      end
  | None => None
  end.

(** [__new_box]: a box under a new identity, not yet held by the pool. *)
Definition __new_box (now : Q) (self : t) : option (loc * ChatBox.t) * t :=
  (Some (created self, ChatBox.init now),
   mk (map self) (boxes self) (next_purge_time self) (S (created self))).

Definition get_box (now : Q) (identifier : ID) (self : t) : option loc * t :=
  match weak_get identifier self with
  | Some box => (Some box, self)
  | None =>
      match __new_box now self with
      | (Some (box, object), self) =>
          (Some box,
           mk (<[identifier := box]> (map self)) (<[box := object]> (boxes self))
              (next_purge_time self) (created self))
      | (None, self) => (None, self)
      end
  end.

(** [for box in boxes: if box.is_expired(now=now): self.__boxes.discard(box)],
    [boxes] being a copy of [self.__boxes]. *)
Definition discard_expired (now : Q) (boxes : gmap loc ChatBox.t)
    : gmap loc ChatBox.t :=
  map_fold
    (fun box object live =>
       if ChatBox.is_expired now object then delete box live else live)
    boxes boxes.

Definition purge (now : Q) (self : t) : bool * t :=
  if Qlt_bool now (next_purge_time self) then (false, self)
  else
    (true,
     mk (map self) (discard_expired now (boxes self)) (now + 60) (created self)).

End ChatBoxPool.

Record ChatRequest := mkChatRequest {
  question : string;
  identifier : ID;
}.

(** [callback] stands for the identity of the ChatCallback object. *)
Record ChatTask := mkChatTask {
  request : ChatRequest;
  callback : nat;
}.

Inductive Event :=
| LogError (msg : string)
| ChatResponse (callback : nat) (answer : string) (request : ChatRequest).

(** Modelled from the spec: [ChatTask.chat_response] is in ../chat; it
    invokes the task's response callback with the answer and the
    original request. *)
Definition chat_response (task : ChatTask) (answer : string)
    (request : ChatRequest) : Event :=
  ChatResponse (callback task) answer request.

Module ChatTaskPool.

(** Modelled from the spec: the class is in ../chat; a FIFO queue of
    pending chat requests, unbounded, [add_task] enqueues at the tail
    and [pop_task] pops from the head without blocking, giving [None]
    when the queue is empty. *)
Definition t := list ChatTask.

Definition init : t := [].

Definition add_task (task : ChatTask) (self : t) : t := self ++ [task].

Definition pop_task (self : t) : option ChatTask * t :=
  match self with
  | [] => (None, [])
  | task :: rest => (Some task, rest)
  end.

End ChatTaskPool.

(** What [time.time()] returns at each place [process] can read it. *)
Record Clock := mkClock {
  at_purge : Q;           (* in ChatBoxPool.purge *)
  at_init : Q;            (* in ChatBox.__init__ *)
  at_prepare : Q;         (* in ChatBox.__prepare *)
}.

Module ChatClient.

Record t := mk {
  box_pool : ChatBoxPool.t;
  task_pool : ChatTaskPool.t;
  log : list Event;     (* error lines and callback invocations so far *)
}.

Definition init : t := mk ChatBoxPool.init ChatTaskPool.init [].

Definition no_response : string :=
  "{" +:+ dq +:+ "code" +:+ dq +:+ ": 404, " +:+ dq +:+ "error" +:+ dq +:+ ": "
    +:+ dq +:+ "No response, please try again later." +:+ dq +:+ "}".

Definition request (question : string) (identifier : ID) (callback : nat)
    (self : t) : t :=
  let request := mkChatRequest question identifier in
  let task := mkChatTask request callback in
  mk (box_pool self) (ChatTaskPool.add_task task (task_pool self)) (log self).

Definition process (clock : Clock) (gpt : Backend) (self : t) : Res bool * t :=
  match ChatTaskPool.pop_task (task_pool self) with
  | (None, tasks) =>
      let '(_, pool) := ChatBoxPool.purge (at_purge clock) (box_pool self) in
      (Ok false, mk pool tasks (log self))
  | (Some task, tasks) =>
      let request := FakeOpen.request task in
      let question := FakeOpen.question request in
      let identifier := FakeOpen.identifier request in
      match ChatBoxPool.get_box (at_init clock) identifier (box_pool self) with
      | (None, pool) =>
          (Ok false, mk pool tasks (log self ++ [LogError "failed to get chat box"]))
      | (Some box, pool) =>
          match ChatBoxPool.boxes pool !! box with
          | None => (Raise "dangling reference", mk pool tasks (log self))
          | Some object =>
              let '(answer, object) :=
                ChatBox.ask (at_prepare clock) gpt question object in
              let pool :=
                ChatBoxPool.mk (ChatBoxPool.map pool)
                  (<[box := object]> (ChatBoxPool.boxes pool))
                  (ChatBoxPool.next_purge_time pool) (ChatBoxPool.created pool) in
              match answer with
              | Raise error => (Raise error, mk pool tasks (log self))
              | Ok None =>
                  (Ok true,
                   mk pool tasks
                      (log self ++ [LogError "failed to get answer";
                                    chat_response task no_response request]))
              | Ok (Some answer) =>
                  (Ok true,
                   mk pool tasks (log self ++ [chat_response task answer request]))
              end
          end
      end
  end.

End ChatClient.

End FakeOpen.

(** * Specification vocabulary *)

Module TvMovieSpec.
Import TvMovie TvMovie.SearchBox.

(** What a call added to the log. *)
Definition new_events (w w' : World) : list Event :=
  drop (length (log w)) (log w').

(** An engine call after which the loop goes on to the next engine:
    neither a success nor the cancellation sentinel. *)
Definition continues (out : Outcome) : Prop :=
  (code_of out <= 0)%Z ∧ code_of out ≠ CANCELLED_CODE.

(** A failure: a negative code other than the sentinel; a raised
    exception is one, through the code -500. *)
Definition fails (out : Outcome) : Prop :=
  (code_of out < 0)%Z ∧ code_of out ≠ CANCELLED_CODE.

Definition is_crash (ev : Event) : bool :=
  match ev with ReportCrash _ => true | _ => false end.

Definition is_response (ev : Event) : bool :=
  match ev with RespondMarkdown _ _ => true | _ => false end.

Definition count_events (p : Event → bool) (evs : list Event) : nat :=
  length (List.filter p evs).

(** What the loop logs for engines it tries and leaves behind, the first
    of them being at [index]. *)
Fixpoint attempts (search : Oracle) (task : Task) (pre : list Engine)
    (index : nat) : list Event :=
  match pre with
  | [] => []
  | engine :: pre' =>
      let out := search index engine task in
      Search index engine task :: caught out
        ++ (if (code_of out <? 0)%Z
            then [LogError; ReportFailure service (agent engine)] else [])
        ++ attempts search task pre' (S index)
  end.

(** How many of them failed. *)
Fixpoint failed_among (search : Oracle) (task : Task) (pre : list Engine)
    (index : nat) : nat :=
  match pre with
  | [] => 0
  | engine :: pre' =>
      (if (code_of (search index engine task) <? 0)%Z then 1 else 0)
        + failed_among search task pre' (S index)
  end.

(** The list objects the client and its boxes hold. *)
Definition held (s : System) : list loc :=
  SearchClient.engines (client s) :: (SearchBox.engines <$> made s).

(** No list object is held twice, and each one held is in the store. *)
Definition separate (s : System) : Prop :=
  NoDup (held s) ∧ ∀ l, l ∈ held s → l ∈ dom (lists (world s)).

(** One [add_command] per entry of [cmds], in order. *)
Definition add_commands (cmds : list HistoryManager.Command)
    (self : HistoryManager.t) : HistoryManager.t :=
  foldl (fun self c =>
           HistoryManager.add_command (HistoryManager.cmd c)
             (HistoryManager.cmd_when c) (HistoryManager.cmd_sender c)
             (HistoryManager.cmd_group c) self)
        self cmds.

End TvMovieSpec.

Module FakeOpenSpec.
Import FakeOpen.

(** What can happen to a pool: [get_box], a question put to a box it
    holds (which is what [process] does with the box it gets), [purge]. *)
Inductive PoolOp :=
| GetBox (now : Q) (identifier : ID)
| Touch (now : Q) (gpt : Backend) (question : string) (box : loc)
| Purge (now : Q).

Definition pool_step (op : PoolOp) (p : ChatBoxPool.t) : ChatBoxPool.t :=
  match op with
  | GetBox now identifier => (ChatBoxPool.get_box now identifier p).2
  | Touch now gpt question box =>
      match ChatBoxPool.boxes p !! box with
      | Some object =>
          ChatBoxPool.mk (ChatBoxPool.map p)
            (<[box := (ChatBox.ask now gpt question object).2]> (ChatBoxPool.boxes p))
            (ChatBoxPool.next_purge_time p) (ChatBoxPool.created p)
      | None => p
      end
  | Purge now => (ChatBoxPool.purge now p).2
  end.

Definition pool_run (ops : list PoolOp) (p : ChatBoxPool.t) : ChatBoxPool.t :=
  foldl (fun p op => pool_step op p) p ops.

(** Every box the pool holds was constructed before now. *)
Definition numbered (p : ChatBoxPool.t) : Prop :=
  ∀ box, is_Some (ChatBoxPool.boxes p !! box) → box < ChatBoxPool.created p.

(** While the pool holds [box], the entry of [identifier] names it; and
    [box] was constructed before now, as was every box held. *)
Definition names (identifier : ID) (box : loc) (p : ChatBoxPool.t) : Prop :=
  numbered p
  ∧ box < ChatBoxPool.created p
  ∧ (is_Some (ChatBoxPool.boxes p !! box) →
     ChatBoxPool.map p !! identifier = Some box).

(** What can happen to the client. *)
Inductive ClientOp :=
| Request (question : string) (identifier : ID) (callback : nat)
| Process (clock : Clock) (gpt : Backend).

Definition client_step (op : ClientOp) (c : ChatClient.t) : ChatClient.t :=
  match op with
  | Request question identifier callback =>
      ChatClient.request question identifier callback c
  | Process clock gpt => (ChatClient.process clock gpt c).2
  end.

Definition client_run (ops : list ClientOp) (c : ChatClient.t) : ChatClient.t :=
  foldl (fun c op => client_step op c) c ops.

(** The tasks [request] has accepted, in order. *)
Fixpoint accepted (ops : list ClientOp) : list ChatTask :=
  match ops with
  | [] => []
  | Request question identifier callback :: ops =>
      mkChatTask (mkChatRequest question identifier) callback :: accepted ops
  | Process _ _ :: ops => accepted ops
  end.

(** The tasks whose callback has been invoked, one entry per invocation. *)
Fixpoint answered (log : list Event) : list ChatTask :=
  match log with
  | [] => []
  | ChatResponse callback _ request :: log => mkChatTask request callback :: answered log
  | LogError _ :: log => answered log
  end.

(** The callback invocations, in order. *)
Fixpoint responses (log : list Event) : list Event :=
  match log with
  | [] => []
  | ChatResponse callback answer request :: log =>
      ChatResponse callback answer request :: responses log
  | LogError _ :: log => responses log
  end.

(** A backend that returns (an answer or [None]) and does not raise. *)
Definition returns (gpt : Backend) : Prop :=
  ∀ question, ∃ answer, gpt question = Ok answer.

Definition op_returns (op : ClientOp) : Prop :=
  match op with
  | Request _ _ _ => True
  | Process _ gpt => returns gpt
  end.

(** What the callback is given for what the backend returned. *)
Definition payload (reply : Res (option string)) : string :=
  match reply with
  | Ok (Some answer) => answer
  | _ => ChatClient.no_response
  end.

(** The callback invocation a task is owed, given the backend it meets. *)
Definition response (task : ChatTask) (gpt : Backend) : Event :=
  ChatResponse (callback task)
    (payload (gpt (question (request task)))) (request task).

(** The worker running [process] once per entry of [turns]. *)
Definition worker (turns : list (Clock * Backend)) : list ClientOp :=
  (fun turn => Process turn.1 turn.2) <$> turns.

End FakeOpenSpec.

(** * Scenarios

    Concrete engines, oracles, pools and clients, used to run the model. *)

Module Scenario.
Import TvMovie.

Definition A : Engine := mkEngine 0 "alpha".
Definition B : Engine := mkEngine 1 "beta".
Definition C : Engine := mkEngine 2 "gamma".

Definition matrix : Task := mkTask "matrix" (mkChatRequest "alice" None 0%Q).

(** A box of "alice" whose engine list is [A; B; C], at location 0. *)
Definition alice : SearchBox.t := SearchBox.mk "alice" 0.
Definition w0 : World := mkWorld {[ 0 := [A; B; C] ]} [].

(** A throws, B fails with -404, C succeeds with 200. *)
Definition third_succeeds : Oracle :=
  fun _ engine _ =>
    match engine_id engine with
    | 0 => Throws "connection reset"
    | 1 => Returns (-404)
    | _ => Returns 200
    end.

(** A fails with -404, B reports cancellation, C would succeed. *)
Definition second_cancelled : Oracle :=
  fun _ engine _ =>
    match engine_id engine with
    | 0 => Returns (-404)
    | 1 => Returns CANCELLED_CODE
    | _ => Returns 200
    end.

Definition all_down : Oracle := fun _ _ _ => Throws "connection reset".

(** A returns 0, B fails with -404, C throws. *)
Definition none_found : Oracle :=
  fun _ engine _ =>
    match engine_id engine with
    | 0 => Returns 0
    | 1 => Returns (-404)
    | _ => Throws "connection reset"
    end.

(** What [second_cancelled] leaves in the log of [w0]. *)
Definition w0_cancelled : World :=
  emit [Search 0 A matrix; LogError; ReportFailure "SearchBox" "alpha";
        Search 1 B matrix] w0.

(** A client with three engines and two boxes. *)
Definition two_boxes : list Op :=
  [AddEngine A; AddEngine B; AddEngine C; NewBox "alice"; NewBox "bob"].

Definition silent : FakeOpen.Backend := fun _ => Ok None.
Definition echo : FakeOpen.Backend := fun question => Ok (Some question).

(** A pool in which "alice" got her box at time 0, was answered at time
    100, and "bob" got his box at time 200. *)
Definition alice_first : FakeOpen.ChatBoxPool.t :=
  (FakeOpen.ChatBoxPool.get_box 0%Q "alice" FakeOpen.ChatBoxPool.init).2.

Definition later : list FakeOpenSpec.PoolOp :=
  [FakeOpenSpec.Touch 100%Q silent "hi" 0; FakeOpenSpec.GetBox 200%Q "bob"].

(** A pool whose next scan is due at time 100. *)
Definition scanned : FakeOpen.ChatBoxPool.t :=
  (FakeOpen.ChatBoxPool.purge 40%Q alice_first).2.

Definition noon : FakeOpen.Clock := FakeOpen.mkClock 10%Q 20%Q 30%Q.

(** A client with one request of "alice" queued. *)
Definition one_queued : FakeOpen.ChatClient.t :=
  FakeOpen.ChatClient.request "hi" "alice" 7 FakeOpen.ChatClient.init.

Definition session : list FakeOpenSpec.ClientOp :=
  [FakeOpenSpec.Request "hi" "alice" 7; FakeOpenSpec.Request "there" "alice" 8;
   FakeOpenSpec.Process noon echo].

End Scenario.

(** * More vocabulary for the dispatcher *)

Module DispatchSpec.
Import TvMovie TvMovie.SearchBox TvMovieSpec.

Definition is_success_report (ev : Event) : bool :=
  match ev with ReportSuccess _ _ => true | _ => false end.

Definition is_failure_report (ev : Event) : bool :=
  match ev with ReportFailure _ _ => true | _ => false end.

(** The engine calls among some events: position and engine, in order. *)
Fixpoint calls (evs : list Event) : list (nat * Engine) :=
  match evs with
  | [] => []
  | Search index engine _ :: evs => (index, engine) :: calls evs
  | _ :: evs => calls evs
  end.

(** The first [n] engines of [l], each with its position counted from
    [index]. *)
Fixpoint numbered_from (index : nat) (l : list Engine) : list (nat * Engine) :=
  match l with
  | [] => []
  | engine :: l => (index, engine) :: numbered_from (S index) l
  end.

(** The four ways a dispatch over the list [l] ends, with what it
    returns, what it logs and what it leaves in the store. *)
Inductive Ending (search : Oracle) (history : option (list string))
    (self : SearchBox.t) (task : Task) (w : World) (l : list Engine)
    : Res bool → list Event → gmap loc (list Engine) → Prop :=
| NoEngines :
    l = [] →
    Ending search history self task w l (Ok false) [LogError] (lists w)
| Exhausted :
    l ≠ [] →
    (∀ j e, l !! j = Some e → continues (search j e task)) →
    Ending search history self task w l
      (Ok (negb (failed_among search task l 0 =? length l)))
      (attempts search task l 0
         ++ [_respond_204 history (keywords task) (request task)]
         ++ (if failed_among search task l 0 =? length l
             then [ReportCrash service] else []))
      (lists w)
| Succeeded (k : nat) (engine : Engine) :
    l !! k = Some engine →
    (∀ j e, j < k → l !! j = Some e → continues (search j e task)) →
    (0 < code_of (search k engine task))%Z →
    Ending search history self task w l (Ok true)
      (attempts search task (take k l) 0
         ++ Search k engine task :: caught (search k engine task)
         ++ [ReportSuccess service (agent engine)]
         ++ (if k =? 0 then [] else [LogWarning]))
      (if k =? 0 then lists w
       else <[engines self := engine :: delete k l]> (lists w))
| Stopped (k : nat) (engine : Engine) :
    l !! k = Some engine →
    (∀ j e, j < k → l !! j = Some e → continues (search j e task)) →
    search k engine task = Returns CANCELLED_CODE →
    Ending search history self task w l (Ok false)
      (attempts search task (take k l) 0 ++ [Search k engine task])
      (lists w).

(** The engines registered by [add_engine] along some operations. *)
Fixpoint added (ops : list Op) : list Engine :=
  match ops with
  | [] => []
  | AddEngine engine :: ops => engine :: added ops
  | _ :: ops => added ops
  end.

(** Whether an operation is a dispatch of the box made [k]-th. *)
Definition dispatches (k : nat) (op : Op) : bool :=
  match op with
  | Dispatch k' _ _ _ => k' =? k
  | _ => false
  end.

End DispatchSpec.

(** * More vocabulary for the pool *)

Module PoolSpec.
Import FakeOpen FakeOpenSpec.

(** Every box the pool holds or names was constructed before now, and
    no box the pool holds is named under two users. *)
Definition exclusive (p : ChatBoxPool.t) : Prop :=
  numbered p
  ∧ (∀ identifier box,
       ChatBoxPool.map p !! identifier = Some box → box < ChatBoxPool.created p)
  ∧ (∀ id1 id2 box,
       ChatBoxPool.map p !! id1 = Some box →
       ChatBoxPool.map p !! id2 = Some box →
       is_Some (ChatBoxPool.boxes p !! box) → id1 = id2).

End PoolSpec.

(** * libs/av/tv_movie/client.py: the prompt handler of a SearchBox *)

Module Prompt.
Import TvMovie.

(** What Python's [str] does to a prompt, and what the box and the
    library render as text: [prompt.strip()], [keywords.lower()],
    [len(keywords)], [await box.get_name(identifier)] and ['%s' % when]
    are inputs. Nothing is assumed about them. *)
Record Env := mkEnv {
  strip : string → string;
  lower : string → string;
  len : string → nat;
  get_name : ID → string;
  show_time : DateTime → string;
}.

(** What a background thread is started on. *)
Inductive Coroutine :=
| TvSearch (task : Task)            (* tv.search(task=task) *)
| BoxSearch (task : Task).          (* self._search(task=task) *)

(** What the handler does to its surroundings. Log lines are recorded
    without their text. *)
Inductive Event :=
| Info                              (* self.info / Log.info *)
| Warning                           (* self.warning *)
| Cancel (task : Task)              (* task.cancel() *)
| ClearCaches                       (* tv.clear_caches() *)
| GetLiveUrls                       (* await tv.get_live_urls() *)
| Respond (text : string) (request : ChatRequest)
| RespondLives (text : string) (request : ChatRequest) (muted : string)
    (tag : option string) (lives : list string)
| Start (coro : Coroutine).         (* Runner.async_thread(coro).start() *)

(** The task of the box ([self.__task]), the history manager (a
    singleton) and what has been done so far. *)
Record State := mkState {
  task : option Task;
  history : HistoryManager.t;
  effects : list Event;
}.

Definition tell (evs : list Event) (st : State) : State :=
  mkState (task st) (history st) (effects st ++ evs).

Definition _cancel_task (st : State) : State :=
  match task st with
  | Some running =>
      mkState None (history st) (effects st ++ [Warning; Cancel running])
  | None => st
  end.

Definition _new_task (keywords : string) (request : ChatRequest) (st : State)
    : Task * State :=
  let new := mkTask keywords request in
  let st := _cancel_task st in
  (new, mkState (Some new) (history st) (effects st)).

(** One row of the table of [_respond_history]. *)
Definition history_row (env : Env) (his : HistoryManager.Command) : string :=
  let user := "**" +:+ dq +:+ get_name env (HistoryManager.cmd_sender his)
                +:+ dq +:+ "**" in
  let user :=
    match HistoryManager.cmd_group his with
    | Some group => user +:+ " (" +:+ get_name env group +:+ ")"
    | None => user
    end in
  "| " +:+ user +:+ " | " +:+ HistoryManager.cmd his +:+ " | "
    +:+ show_time env (HistoryManager.cmd_when his) +:+ " |" +:+ nl.

Fixpoint history_rows (env : Env) (text : string)
    (history : list HistoryManager.Command) : string :=
  match history with
  | [] => text
  | his :: history => history_rows env (text +:+ history_row env his) history
  end.

Definition _respond_history_text (env : Env)
    (history : list HistoryManager.Command) : string :=
  let text := "Search history:" +:+ nl in
  let text := text +:+ "| From | Keyword | Time |" +:+ nl in
  let text := text +:+ "|------|---------|------|" +:+ nl in
  history_rows env text history.

Definition _respond_history (env : Env) (history : list HistoryManager.Command)
    (request : ChatRequest) : list Event :=
  [Respond (_respond_history_text env history) request].

Fixpoint live_lines (text : string) (live_urls : list string) : string :=
  match live_urls with
  | [] => text
  | url :: live_urls =>
      live_lines (text +:+ "- [" +:+ url +:+ "](" +:+ url +:+ "#lives.txt "
                    +:+ dq +:+ "LIVE" +:+ dq +:+ ")" +:+ nl) live_urls
  end.

(** [live_urls] in the order the set is iterated; [tag] is
    [request.content.get('tag')]. *)
Definition _respond_live_urls (live_urls : list string) (tag : option string)
    (request : ChatRequest) : list Event :=
  let count := length live_urls in
  let text := "Live Stream Sources:" +:+ nl in
  let text := text +:+ nl +:+ "----" +:+ nl in
  let text := live_lines text live_urls in
  let text := text +:+ nl +:+ "----" +:+ nl in
  let text := text +:+ "Total " +:+ pretty count +:+ " source(s)." in
  [Info; RespondLives text request "yes" tag live_urls].

(** [kw_len == n and keywords.lower() == name] *)
Definition is_command (env : Env) (keywords : string) (kw_len n : nat)
    (name : string) : bool :=
  (kw_len =? n) && String.eqb (lower env keywords) name.

(** [async def _ask_question(self, prompt, content, request)];
    [live_urls] and [tag] are what [tv.get_live_urls()] and the request
    content would give. *)
Definition _ask_question (env : Env) (live_urls : list string)
    (tag : option string) (prompt : string) (request : ChatRequest)
    (st : State) : State :=
  let sender := sender request in
  let group := group request in
  let st := tell [Info] st in
  let keywords := strip env prompt in
  let kw_len := len env keywords in
  if kw_len =? 0 then st
  else
    let st := _cancel_task st in
    let st :=
      mkState (task st)
        (HistoryManager.add_command keywords (time request) sender group
           (history st))
        (effects st) in
    if is_command env keywords kw_len 6 "cancel" then st
    else if is_command env keywords kw_len 4 "stop" then st
    else if is_command env keywords kw_len 12 "show history" then
      tell (_respond_history env (HistoryManager.commands (history st)) request) st
    else
      let '(new, st) := _new_task keywords request st in
      if is_command env keywords kw_len 11 "tv channels" then
        tell [ClearCaches; Start (TvSearch new)] st
      else if is_command env keywords kw_len 19 "live stream sources" then
        tell (ClearCaches :: GetLiveUrls
                :: _respond_live_urls live_urls tag request) st
      else
        tell [Start (BoxSearch new)] st.

(** The prompts that neither install a task nor start anything. *)
Definition is_system_command (env : Env) (keywords : string) : bool :=
  let kw_len := len env keywords in
  is_command env keywords kw_len 6 "cancel"
  || is_command env keywords kw_len 4 "stop"
  || is_command env keywords kw_len 12 "show history".

Definition is_cancel (ev : Event) : bool :=
  match ev with Cancel _ => true | _ => false end.

Definition is_start (ev : Event) : bool :=
  match ev with Start _ => true | _ => false end.

Definition count (p : Event → bool) (evs : list Event) : nat :=
  length (List.filter p evs).

(** What a call added to [effects]. *)
Definition added (st st' : State) : list Event :=
  drop (length (effects st)) (effects st').

End Prompt.

(** * More scenarios *)

Module Scenario2.
Import TvMovie Scenario.

(** What the client of [two_boxes] goes on to do: one more engine, one
    more box, and a dispatch of the second box. *)
Definition goes_on : list Op :=
  [AddEngine A; NewBox "carol"; Dispatch 1 third_succeeds None matrix].

(** A client of the chat backend with two requests of "alice" queued. *)
Definition two_queued : FakeOpen.ChatClient.t :=
  FakeOpen.ChatClient.request "there" "alice" 8 one_queued.

(** A client that has answered "alice" once and has her next request
    queued. *)
Definition alice_again : FakeOpen.ChatClient.t :=
  FakeOpen.ChatClient.request "again" "alice" 9
    (FakeOpen.ChatClient.process noon silent one_queued).2.

(** A backend whose call raises. *)
Definition broken : FakeOpen.Backend := fun _ => Raise "timed out".

(** Prompts taken as they are: nothing to strip, already lower case,
    one character per byte. *)
Definition plain : Prompt.Env :=
  Prompt.mkEnv (fun s => s) (fun s => s) String.length (fun identifier => identifier)
    (fun _ => "12:00").

Definition ask : ChatRequest := mkChatRequest "alice" None 0%Q.

(** A box that is searching for "dune", with one command in the history. *)
Definition searching : Prompt.State :=
  Prompt.mkState (Some (mkTask "dune" ask))
    [HistoryManager.mkCommand "alice" None 0%Q "dune"] [].

End Scenario2.

(** * The search dispatcher *)

Section Dispatch.
Import TvMovie TvMovie.SearchBox TvMovieSpec.

Variable search : Oracle.
Variable task : Task.

Lemma try_engines_skip (pre rest : list Engine) (index failed : nat) :
  (∀ j e, pre !! j = Some e → continues (search (index + j) e task)) →
  try_engines search task (pre ++ rest) index failed =
    let '(exit, evs) :=
      try_engines search task rest (index + length pre)
        (failed + failed_among search task pre index) in
    (exit, attempts search task pre index ++ evs).
Proof.
  revert index failed.
  induction pre as [|engine pre IH]; intros index failed Hpre.
  - cbn. rewrite !Nat.add_0_r. by destruct try_engines.
  - destruct (Hpre 0 engine eq_refl) as [Hle Hne].
    rewrite Nat.add_0_r in Hle, Hne.
    cbn [app try_engines attempts failed_among length].
    assert ((0 <? code_of (search index engine task))%Z = false) as -> by lia.
    assert ((code_of (search index engine task) =? CANCELLED_CODE)%Z = false)
      as -> by lia.
    assert (∀ j e, pre !! j = Some e → continues (search (S index + j) e task))
      as Hpre'.
    { intros j e Hj. specialize (Hpre (S j) e Hj).
      by rewrite Nat.add_succ_r in Hpre. }
    destruct (code_of (search index engine task) <? 0)%Z;
      rewrite (IH _ _ Hpre'), !Nat.add_succ_r; cbn [Nat.add];
      destruct try_engines; by rewrite <- ?app_assoc.
Qed.

Lemma failed_among_le (pre : list Engine) (index : nat) :
  failed_among search task pre index ≤ length pre.
Proof.
  revert index. induction pre as [|e pre IH]; intros index; cbn; [lia|].
  specialize (IH (S index)). destruct (_ <? _)%Z; lia.
Qed.

Lemma failed_among_all (pre : list Engine) (index : nat) :
  (∀ j e, pre !! j = Some e → fails (search (index + j) e task)) →
  failed_among search task pre index = length pre.
Proof.
  revert index. induction pre as [|e pre IH]; intros index Hpre; cbn; [done|].
  destruct (Hpre 0 e eq_refl) as [Hlt _]. rewrite Nat.add_0_r in Hlt.
  assert ((code_of (search index e task) <? 0)%Z = true) as -> by lia.
  rewrite IH; [done|]. intros j e' Hj.
  specialize (Hpre (S j) e' Hj). by rewrite Nat.add_succ_r in Hpre.
Qed.

Lemma fails_continues (out : Outcome) : fails out → continues out.
Proof. unfold fails, continues. lia. Qed.

(** The events of engines tried and left behind: calls of those engines,
    error lines and failure reports, nothing else. *)
Lemma attempts_events (pre : list Engine) (index : nat) (ev : Event) :
  ev ∈ attempts search task pre index →
  (∃ (j : nat) e, pre !! j = Some e ∧ ev = Search (index + j) e task)
  ∨ ev = LogError
  ∨ (∃ (j : nat) e, pre !! j = Some e ∧ ev = ReportFailure service (agent e)
            ∧ (code_of (search (index + j)%nat e task) < 0)%Z).
Proof.
  revert index. induction pre as [|e pre IH]; intros index; cbn.
  - by intros ?%elem_of_nil.
  - rewrite elem_of_cons, !elem_of_app. intros [->|[Hc|[Hf|Hin]]].
    + left. exists 0, e. by rewrite Nat.add_0_r.
    + right; left. destruct (search index e task); cbn in Hc.
      * by apply elem_of_nil in Hc.
      * by apply list_elem_of_singleton in Hc.
    + destruct (code_of (search index e task) <? 0)%Z eqn:Hneg.
      * apply elem_of_cons in Hf as [->|Hf]; [by right; left|].
        apply list_elem_of_singleton in Hf as ->.
        right; right. exists 0, e. rewrite Nat.add_0_r. split_and!; [done..|lia].
      * by apply elem_of_nil in Hf.
    + destruct (IH _ Hin) as [(j & e' & Hj & ->)|[->|(j & e' & Hj & -> & Hneg)]].
      * left. exists (S j), e'. by rewrite Nat.add_succ_r.
      * by right; left.
      * right; right. exists (S j), e'. by rewrite Nat.add_succ_r.
Qed.

End Dispatch.

Section DispatchOutcome.
Import TvMovie TvMovie.SearchBox TvMovieSpec.

Lemma new_events_emit (evs : list Event) (w : World) :
  new_events w (emit evs w) = evs.
Proof. unfold new_events, emit; cbn. apply drop_app_length. Qed.

(** The loop, when engine [i] is reached and succeeds. *)
Lemma try_engines_success (search : Oracle) (task : Task)
    (all_engines : list Engine) (i : nat) (engine : Engine) :
  all_engines !! i = Some engine →
  (∀ j e, j < i → all_engines !! j = Some e → continues (search j e task)) →
  (0 < code_of (search i engine task))%Z →
  try_engines search task all_engines 0 0 =
    (Done i (failed_among search task (take i all_engines) 0),
     attempts search task (take i all_engines) 0
       ++ Search i engine task :: caught (search i engine task)
       ++ [ReportSuccess service (agent engine)]).
Proof.
  intros Hi Hpre Hsucc.
  pose proof (lookup_lt_Some _ _ _ Hi) as Hlt.
  rewrite <- (take_drop_middle all_engines i engine Hi) at 1.
  rewrite try_engines_skip.
  - rewrite length_take, Nat.min_l by lia. cbn.
    by assert ((0 <? code_of (search i engine task))%Z = true) as -> by lia.
  - intros j e Hj. cbn.
    pose proof (lookup_lt_Some _ _ _ Hj) as Hjlt. rewrite length_take in Hjlt.
    apply Hpre; [lia|]. rewrite lookup_take_lt in Hj; [done|lia].
Qed.

(** The loop, when no engine succeeds or reports cancellation. *)
Lemma try_engines_exhausted (search : Oracle) (task : Task)
    (all_engines : list Engine) :
  (∀ j e, all_engines !! j = Some e → continues (search j e task)) →
  try_engines search task all_engines 0 0 =
    (Done (length all_engines) (failed_among search task all_engines 0),
     attempts search task all_engines 0).
Proof.
  intros Hall.
  rewrite <- (app_nil_r all_engines) at 1.
  rewrite try_engines_skip by done. cbn. by rewrite app_nil_r.
Qed.

Lemma emit_emit (a b : list Event) (w : World) :
  emit b (emit a w) = emit (a ++ b) w.
Proof. unfold emit; cbn. by rewrite app_assoc. Qed.

Lemma count_events_app (p : Event → bool) (a b : list Event) :
  count_events p (a ++ b) = count_events p a + count_events p b.
Proof. unfold count_events. by rewrite List.filter_app, length_app. Qed.

Lemma count_events_none (p : Event → bool) (evs : list Event) :
  (∀ ev, ev ∈ evs → p ev = false) → count_events p evs = 0.
Proof.
  unfold count_events. induction evs as [|ev evs IH]; intros Hp; [done|].
  cbn. rewrite (Hp ev) by apply list_elem_of_here.
  apply IH. intros ev' Hin. apply Hp. by apply list_elem_of_further.
Qed.

Lemma attempts_no_crash (search : Oracle) (task : Task)
    (pre : list Engine) (index : nat) :
  count_events is_crash (attempts search task pre index) = 0.
Proof.
  apply count_events_none. intros ev Hin.
  by destruct (attempts_events _ _ _ _ _ Hin)
    as [(? & ? & _ & ->)|[->|(? & ? & _ & -> & _)]].
Qed.

Lemma attempts_no_response (search : Oracle) (task : Task)
    (pre : list Engine) (index : nat) :
  count_events is_response (attempts search task pre index) = 0.
Proof.
  apply count_events_none. intros ev Hin.
  by destruct (attempts_events _ _ _ _ _ Hin)
    as [(? & ? & _ & ->)|[->|(? & ? & _ & -> & _)]].
Qed.

Lemma new_events_log (evs : list Event) (w w' : World) :
  log w' = log w ++ evs → new_events w w' = evs.
Proof. unfold new_events. intros ->. apply drop_app_length. Qed.

(** An engine the loop calls is reached through engines that all let
    the loop go on. *)
Lemma try_engines_called (search : Oracle) (task : Task) (rest : list Engine)
    (index failed : nat) (i : nat) (engine : Engine) (t : Task) :
  Search i engine t ∈ (try_engines search task rest index failed).2 →
  ∃ pre rest', rest = pre ++ engine :: rest' ∧ i = index + length pre
    ∧ ∀ j e, pre !! j = Some e → continues (search (index + j) e task).
Proof.
  revert index failed.
  induction rest as [|e rest IH]; intros index failed; cbn.
  { by intros ?%elem_of_nil. }
  assert (∀ rest', Search i engine t ∈ Search index e task :: caught (search index e task) ++ rest' →
    (i = index ∧ engine = e) ∨ Search i engine t ∈ rest') as Hhead.
  { intros rest'. rewrite elem_of_cons, elem_of_app. intros [Heq|[Hc|Hin]].
    - left. by inversion Heq.
    - destruct (search index e task); cbn in Hc.
      + by apply elem_of_nil in Hc.
      + by apply list_elem_of_singleton in Hc.
    - by right. }
  assert (∀ f, (code_of (search index e task) ≤ 0)%Z →
    code_of (search index e task) ≠ CANCELLED_CODE →
    Search i engine t ∈ (try_engines search task rest (S index) f).2 →
    ∃ pre rest', e :: rest = pre ++ engine :: rest' ∧ i = index + length pre
      ∧ ∀ j e', pre !! j = Some e' → continues (search (index + j) e' task))
    as Hnext.
  { intros f Hle Hne Hin.
    destruct (IH _ _ Hin) as (pre & rest' & -> & -> & Hpre).
    exists (e :: pre), rest'. split_and!; [done|cbn; lia|].
    intros [|j] e'; cbn.
    - intros [= <-]. by rewrite Nat.add_0_r.
    - rewrite Nat.add_succ_r. apply Hpre. }
  assert (i = index ∧ engine = e →
    ∃ pre rest', e :: rest = pre ++ engine :: rest' ∧ i = index + length pre
      ∧ ∀ j e', pre !! j = Some e' → continues (search (index + j) e' task))
    as Hhere.
  { intros [-> ->]. exists [], rest. split_and!; [done|cbn; lia|].
    intros j e' Hj. by rewrite lookup_nil in Hj. }
  destruct (Z.ltb_spec 0 (code_of (search index e task))) as [Hpos|Hle].
  { cbn. intros [?|Hin]%Hhead; [auto|]. by apply list_elem_of_singleton in Hin. }
  destruct (Z.eqb_spec (code_of (search index e task)) CANCELLED_CODE)
    as [Hcan|Hne].
  { cbn. rewrite <- (app_nil_r (caught _)).
    intros [?|Hin]%Hhead; [auto|]. by apply elem_of_nil in Hin. }
  destruct (code_of (search index e task) <? 0)%Z.
  - specialize (Hnext (S failed) Hle Hne).
    destruct try_engines as [exit evs]. cbn in *.
    intros [?|Hin]%Hhead; [auto|].
    apply elem_of_cons in Hin as [?|Hin]; [done|].
    apply elem_of_cons in Hin as [?|Hin]; [done|]. auto.
  - specialize (Hnext failed Hle Hne).
    destruct try_engines as [exit evs]. cbn in *.
    intros [?|Hin]%Hhead; auto.
Qed.

(** The loop, when it calls engine [i] and that engine returns the
    cancellation sentinel. *)
Lemma try_engines_cancelled (search : Oracle) (task : Task)
    (all_engines : list Engine) (i : nat) (engine : Engine) :
  Search i engine task ∈ (try_engines search task all_engines 0 0).2 →
  search i engine task = Returns CANCELLED_CODE →
  all_engines !! i = Some engine
  ∧ try_engines search task all_engines 0 0 =
      (Cancelled,
       attempts search task (take i all_engines) 0 ++ [Search i engine task]).
Proof.
  intros Hin Hcode.
  destruct (try_engines_called _ _ _ _ _ _ _ _ Hin)
    as (pre & rest & -> & -> & Hpre).
  cbn [Nat.add] in *. split.
  { by rewrite list_lookup_middle. }
  rewrite take_app_length, try_engines_skip by done.
  cbn. by rewrite Hcode.
Qed.

End DispatchOutcome.

(** C2. A dispatch in which the engines before index [i] neither succeed
    nor report cancellation and the engine at [i] succeeds returns true;
    when [0 < i] the box's list afterwards is that engine followed by the
    other engines in their former order, and when [i = 0] the list is as
    it was. *)
Theorem search_promotes_successful_engine
    (search : TvMovie.Oracle) (history : option (list string))
    (self : TvMovie.SearchBox.t) (task : TvMovie.Task) (w : TvMovie.World)
    (all_engines : list TvMovie.Engine) (i : nat) (engine : TvMovie.Engine) :
  TvMovie.lists w !! TvMovie.SearchBox.engines self = Some all_engines →
  all_engines !! i = Some engine →
  (∀ j e, j < i → all_engines !! j = Some e →
          TvMovieSpec.continues (search j e task)) →
  (0 < TvMovie.SearchBox.code_of (search i engine task))%Z →
  ∃ w', TvMovie.SearchBox._search search history self task w = (Ok true, w')
    ∧ (0 < i →
       TvMovie.lists w' !! TvMovie.SearchBox.engines self
         = Some (engine :: take i all_engines ++ drop (S i) all_engines))
    ∧ (i = 0 →
       TvMovie.lists w' !! TvMovie.SearchBox.engines self = Some all_engines).
Proof.
  intros Hl Hi Hpre Hsucc.
  pose proof (lookup_lt_Some _ _ _ Hi) as Hlt.
  pose proof (failed_among_le search task (take i all_engines) 0) as Hfail.
  rewrite length_take in Hfail.
  unfold TvMovie.SearchBox._search. rewrite Hl.
  rewrite (try_engines_success search task all_engines i engine Hi Hpre Hsucc).
  destruct (Nat.eqb_spec (length all_engines) 0) as [?|_]; [lia|].
  destruct (Nat.eqb_spec i (length all_engines)) as [?|_]; [lia|].
  destruct (Nat.eqb_spec
    (TvMovieSpec.failed_among search task (take i all_engines) 0)
    (length all_engines)) as [?|_]; [lia|].
  destruct i as [|i].
  - cbn. eexists; split_and!; [done|lia|done].
  - assert ((0 <? S i) && (S i <? length all_engines) = true) as ->.
    { apply andb_true_iff. split; [done|]. apply Nat.ltb_lt. lia. }
    unfold list_pop. rewrite Hi.
    eexists; split_and!; [done| |lia].
    intros _. cbn. rewrite lookup_insert_eq. by rewrite delete_take_drop.
Qed.

(** C4. When every engine of a non-empty list fails (a negative code
    other than the cancellation sentinel, or an exception, which counts
    as -500), the dispatch returns false and reports exactly one crash,
    for the service of the box. *)
Theorem search_all_failed_reports_one_crash
    (search : TvMovie.Oracle) (history : option (list string))
    (self : TvMovie.SearchBox.t) (task : TvMovie.Task) (w : TvMovie.World)
    (all_engines : list TvMovie.Engine) :
  TvMovie.lists w !! TvMovie.SearchBox.engines self = Some all_engines →
  all_engines ≠ [] →
  (∀ j e, all_engines !! j = Some e → TvMovieSpec.fails (search j e task)) →
  ∃ w', TvMovie.SearchBox._search search history self task w = (Ok false, w')
    ∧ TvMovieSpec.count_events TvMovieSpec.is_crash
        (TvMovieSpec.new_events w w') = 1
    ∧ TvMovie.ReportCrash TvMovie.SearchBox.service
        ∈ TvMovieSpec.new_events w w'.
Proof.
  intros Hl Hne Hall.
  assert (length all_engines ≠ 0) as Hlen by by destruct all_engines.
  unfold TvMovie.SearchBox._search. rewrite Hl.
  rewrite try_engines_exhausted
    by (intros; by apply fails_continues, Hall).
  rewrite (failed_among_all search task all_engines 0 Hall).
  destruct (Nat.eqb_spec (length all_engines) 0) as [?|_]; [lia|].
  rewrite Nat.eqb_refl, !emit_emit.
  eexists; split; [done|]. rewrite new_events_emit. split.
  - rewrite !count_events_app, attempts_no_crash. done.
  - rewrite !elem_of_app. right; right. apply list_elem_of_here.
Qed.

(** C5. When the loop runs over all engines of a non-empty list and none
    succeeds or reports cancellation, the no-result response built by
    [_respond_204] from the keyword history is sent, once, whatever the
    number of engines that failed. *)
Theorem search_exhausted_sends_no_result
    (search : TvMovie.Oracle) (history : option (list string))
    (self : TvMovie.SearchBox.t) (task : TvMovie.Task) (w : TvMovie.World)
    (all_engines : list TvMovie.Engine) :
  TvMovie.lists w !! TvMovie.SearchBox.engines self = Some all_engines →
  all_engines ≠ [] →
  (∀ j e, all_engines !! j = Some e →
          TvMovieSpec.continues (search j e task)) →
  ∃ r w', TvMovie.SearchBox._search search history self task w = (Ok r, w')
    ∧ TvMovie._respond_204 history (TvMovie.keywords task) (TvMovie.request task)
        ∈ TvMovieSpec.new_events w w'
    ∧ TvMovieSpec.count_events TvMovieSpec.is_response
        (TvMovieSpec.new_events w w') = 1.
Proof.
  intros Hl Hne Hall.
  assert (length all_engines ≠ 0) as Hlen by by destruct all_engines.
  unfold TvMovie.SearchBox._search. rewrite Hl.
  rewrite try_engines_exhausted by done.
  destruct (Nat.eqb_spec (length all_engines) 0) as [?|_]; [lia|].
  rewrite Nat.eqb_refl, Nat.ltb_irrefl, andb_false_r, !emit_emit.
  destruct (_ =? _);
    eexists _, _; (split; [done|]); rewrite ?emit_emit, new_events_emit;
    rewrite !count_events_app, attempts_no_response;
    (split; [|done]); rewrite !elem_of_app.
  - right; left. apply list_elem_of_here.
  - right. apply list_elem_of_here.
Qed.

(** C3. When a dispatch calls the engine at index [i] and that engine
    returns the cancellation sentinel -205, the dispatch returns false,
    the store of engine lists is as it was, the last thing it did is that
    call (so no engine after [i] is called, and nothing is reported to
    the monitor for the cancellation), and no crash is reported; the
    failure reports it made are those of engines before [i] that failed. *)
Theorem search_cancelled_stops_dispatch
    (search : TvMovie.Oracle) (history : option (list string))
    (self : TvMovie.SearchBox.t) (task : TvMovie.Task) (w w' : TvMovie.World)
    (all_engines : list TvMovie.Engine) (i : nat) (engine : TvMovie.Engine)
    (r : Res bool) :
  TvMovie.lists w !! TvMovie.SearchBox.engines self = Some all_engines →
  TvMovie.SearchBox._search search history self task w = (r, w') →
  TvMovie.Search i engine task ∈ TvMovieSpec.new_events w w' →
  search i engine task = TvMovie.Returns TvMovie.CANCELLED_CODE →
  r = Ok false
  ∧ TvMovie.lists w' = TvMovie.lists w
  ∧ TvMovieSpec.new_events w w'
      = TvMovieSpec.attempts search task (take i all_engines) 0
          ++ [TvMovie.Search i engine task]
  ∧ (∀ j e t, TvMovie.Search j e t ∈ TvMovieSpec.new_events w w' → j ≤ i)
  ∧ TvMovieSpec.count_events TvMovieSpec.is_crash
      (TvMovieSpec.new_events w w') = 0
  ∧ (∀ s a, TvMovie.ReportFailure s a ∈ TvMovieSpec.new_events w w' →
       ∃ j e, j < i ∧ all_engines !! j = Some e ∧ a = TvMovie.agent e
         ∧ (TvMovie.SearchBox.code_of (search j e task) < 0)%Z).
Proof.
  intros Hl Hs Hin Hcode.
  unfold TvMovie.SearchBox._search in Hs. rewrite Hl in Hs.
  destruct (length all_engines =? 0).
  { injection Hs as <- <-. rewrite new_events_emit in Hin.
    by apply list_elem_of_singleton in Hin. }
  destruct (TvMovie.SearchBox.try_engines search task all_engines 0 0)
    as [exit evs] eqn:Htry.
  assert (TvMovie.Search i engine task ∈ evs) as Hevs.
  { destruct exit as [|index failed].
    { injection Hs as <- <-. by rewrite new_events_emit in Hin. }
    assert (∃ tail, TvMovieSpec.new_events w w' = evs ++ tail
              ∧ TvMovie.Search i engine task ∉ tail) as (tail & Hnew & Htail).
    { unfold list_pop in Hs.
      repeat case_match; injection Hs as <- <-;
        first
          [ exists []; split;
              [apply new_events_log; cbn; by rewrite app_nil_r|]
          | eexists; split;
              [apply new_events_log; cbn; rewrite <- ?app_assoc; reflexivity|] ];
        cbn; rewrite ?elem_of_cons, ?elem_of_nil; unfold TvMovie._respond_204;
        intuition discriminate. }
    rewrite Hnew, elem_of_app in Hin. by destruct Hin. }
  replace evs with (TvMovie.SearchBox.try_engines search task all_engines 0 0).2
    in Hevs by by rewrite Htry.
  destruct (try_engines_cancelled _ _ _ _ _ Hevs Hcode) as [Hi Hcan].
  rewrite Hcan in Htry. injection Htry as <- <-.
  injection Hs as <- <-. rewrite new_events_emit.
  pose proof (lookup_lt_Some _ _ _ Hi) as Hlt.
  split_and!; [done..| | |].
  - intros j e t [Hj|Hj%list_elem_of_singleton]%elem_of_app.
    + destruct (attempts_events _ _ _ _ _ Hj)
        as [(k & e' & Hk & Heq)|[?|(? & ? & _ & ? & _)]]; [|done..].
      injection Heq as -> _ _. apply lookup_lt_Some in Hk.
      rewrite length_take in Hk. lia.
    + injection Hj as -> _ _. lia.
  - by rewrite count_events_app, attempts_no_crash.
  - intros s a [Hj|Hj%list_elem_of_singleton]%elem_of_app; [|done].
    destruct (attempts_events _ _ _ _ _ Hj)
      as [(? & ? & _ & ?)|[?|(k & e' & Hk & Heq & Hneg)]]; [done..|].
    injection Heq as -> ->.
    pose proof (lookup_lt_Some _ _ _ Hk) as Hklt. rewrite length_take in Hklt.
    exists k, e'. rewrite lookup_take_lt in Hk by lia.
    split_and!; [lia|done..].
Qed.

(** * Engine lists are not shared *)

Section Sharing.
Import TvMovie TvMovieSpec.

(** A dispatch writes at most the list of its own box. *)
Lemma _search_lists (search : Oracle) (history : option (list string))
    (self : SearchBox.t) (task : Task) (w : World) :
  let w' := (SearchBox._search search history self task w).2 in
  lists w' = lists w
  ∨ (SearchBox.engines self ∈ dom (lists w)
     ∧ ∃ l, lists w' = <[SearchBox.engines self := l]> (lists w)).
Proof.
  unfold SearchBox._search.
  destruct (lists w !! SearchBox.engines self) as [all_engines|] eqn:Hl;
    [|by left].
  assert (SearchBox.engines self ∈ dom (lists w)) as Hdom
    by by apply elem_of_dom.
  destruct (_ =? 0); [by left|].
  destruct SearchBox.try_engines as [[|index failed] evs]; [by left|].
  destruct (failed =? _); [by destruct (index =? _); left|].
  destruct (_ && _); [|by destruct (index =? _); left].
  unfold list_pop. destruct (all_engines !! index); cbn.
  - right. split; [done|]. destruct (index =? _); by eexists.
  - destruct (index =? _); by left.
Qed.

Lemma _search_frame (search : Oracle) (history : option (list string))
    (self : SearchBox.t) (task : Task) (w : World) (l : loc) :
  l ≠ SearchBox.engines self →
  lists (SearchBox._search search history self task w).2 !! l = lists w !! l.
Proof.
  intros Hne.
  destruct (_search_lists search history self task w) as [->|(_ & ? & ->)];
    [done|]. by rewrite lookup_insert_ne.
Qed.

Lemma _search_dom (search : Oracle) (history : option (list string))
    (self : SearchBox.t) (task : Task) (w : World) :
  dom (lists (SearchBox._search search history self task w).2) = dom (lists w).
Proof.
  destruct (_search_lists search history self task w) as [->|(Hin & ? & ->)];
    [done|]. rewrite dom_insert_L. apply subseteq_union_1_L.
  by apply singleton_subseteq_l.
Qed.

Lemma boot_separate : separate boot.
Proof.
  split; cbn.
  - apply NoDup_singleton.
  - intros l ->%list_elem_of_singleton. rewrite dom_insert_L.
    by apply elem_of_union_l, elem_of_singleton.
Qed.

Lemma step_separate (op : Op) (s : System) :
  separate s → separate (step op s).
Proof.
  intros [Hnd Hdom]. destruct op as [engine|identifier|k search history task]; cbn.
  - unfold SearchClient.add_engine.
    destruct (lists (world s) !! _) as [master|]; [|done].
    split; [done|]. intros l Hl. cbn. rewrite dom_insert_L.
    apply elem_of_union_r, Hdom, Hl.
  - unfold SearchClient._new_box.
    destruct (lists (world s) !! _) as [master|]; [|done]. cbn.
    pose proof (is_fresh (dom (lists (world s)))) as Hfresh.
    split; unfold held in *; cbn.
    + rewrite fmap_app. cbn.
      apply NoDup_cons in Hnd as [Hc Hm]. apply NoDup_cons. split.
      * intros [Hin|Hin%list_elem_of_singleton]%elem_of_app; [done|].
        apply Hfresh. rewrite <- Hin. apply Hdom. left.
      * apply NoDup_app. split_and!; [done| |apply NoDup_singleton].
        intros l Hin ->%list_elem_of_singleton.
        apply Hfresh, Hdom. by right.
    + intros l. rewrite fmap_app, dom_insert_L. cbn.
      rewrite app_comm_cons, elem_of_app, list_elem_of_singleton.
      intros [Hin| ->]; [|by apply elem_of_union_l, elem_of_singleton].
      apply elem_of_union_r, Hdom, Hin.
  - destruct (made s !! k); [|done]. split; [done|]. cbn.
    intros l Hl. rewrite _search_dom. by apply Hdom.
Qed.

Lemma run_separate (ops : list Op) (s : System) :
  separate s → separate (run ops s).
Proof.
  revert s. induction ops as [|op ops IH]; intros s Hs; [done|].
  cbn. by apply IH, step_separate.
Qed.

End Sharing.

(** C10. In every state the client and its boxes can reach, [_new_box]
    hands the new box a list object of its own, holding what the master
    list holds, and a dispatch of one box leaves the master list and the
    list of every other box as they were. *)
Theorem boxes_do_not_share_engine_lists (ops : list TvMovie.Op) :
  let s := TvMovie.run ops TvMovie.boot in
  (∀ identifier, ∃ box w1,
      TvMovie.SearchClient._new_box identifier (TvMovie.client s) (TvMovie.world s)
        = (Ok box, w1)
      ∧ (TvMovie.SearchBox.engines box ∉ TvMovieSpec.held s)
      ∧ TvMovie.lists w1 !! TvMovie.SearchBox.engines box
          = TvMovie.lists (TvMovie.world s)
              !! TvMovie.SearchClient.engines (TvMovie.client s)
      ∧ ∀ l, l ≠ TvMovie.SearchBox.engines box →
             TvMovie.lists w1 !! l = TvMovie.lists (TvMovie.world s) !! l)
  ∧ (∀ k box search history task,
      TvMovie.made s !! k = Some box →
      let w' := (TvMovie.SearchBox._search search history box task
                   (TvMovie.world s)).2 in
      TvMovie.lists w' !! TvMovie.SearchClient.engines (TvMovie.client s)
        = TvMovie.lists (TvMovie.world s)
            !! TvMovie.SearchClient.engines (TvMovie.client s)
      ∧ ∀ k' box', k' ≠ k → TvMovie.made s !! k' = Some box' →
          TvMovie.lists w' !! TvMovie.SearchBox.engines box'
            = TvMovie.lists (TvMovie.world s) !! TvMovie.SearchBox.engines box').
Proof.
  intros s.
  destruct (run_separate ops TvMovie.boot boot_separate) as [Hnd Hdom].
  fold s in Hnd, Hdom. unfold TvMovieSpec.held in *.
  apply NoDup_cons in Hnd as [Hc Hm]. split.
  - intros identifier. unfold TvMovie.SearchClient._new_box.
    destruct (TvMovie.lists (TvMovie.world s) !! _) as [master|] eqn:Hmaster.
    2:{ apply not_elem_of_dom in Hmaster. destruct Hmaster. apply Hdom. left. }
    eexists _, _. split; [done|]. cbn.
    pose proof (is_fresh (dom (TvMovie.lists (TvMovie.world s)))) as Hfresh.
    split_and!.
    + intros Hin. by apply Hfresh, Hdom.
    + by rewrite lookup_insert_eq.
    + intros l Hl. by rewrite lookup_insert_ne.
  - intros k box search history task Hk. cbv zeta. split.
    + apply _search_frame. intros Heq. apply Hc. rewrite Heq.
      apply list_elem_of_fmap. exists box. split; [done|].
      by apply list_elem_of_lookup_2 in Hk.
    + intros k' box' Hne Hk'. apply _search_frame. intros Heq.
      apply Hne.
      apply (NoDup_lookup _ k' k (TvMovie.SearchBox.engines box') Hm).
      * by rewrite list_lookup_fmap, Hk'.
      * by rewrite list_lookup_fmap, Hk, Heq.
Qed.

(** * The command history *)

Section History.
Import TvMovie TvMovieSpec.

Lemma add_commands_keeps_all (cmds : list HistoryManager.Command)
    (self : HistoryManager.t) :
  HistoryManager.commands (add_commands cmds self) = self ++ cmds.
Proof.
  unfold HistoryManager.commands, add_commands. revert self.
  induction cmds as [|c cmds IH]; intros self; cbn [foldl].
  - by rewrite app_nil_r.
  - rewrite IH. unfold HistoryManager.add_command.
    destruct c. cbn. by rewrite <- app_assoc.
Qed.

End History.

(** C1, as the code has it: [add_command] only appends, so after 51
    calls on a new manager the history holds 51 entries, the first one
    included; [MAX_LENGTH] is not consulted. *)
Theorem history_unbounded :
  let entry n :=
    TvMovie.HistoryManager.mkCommand "alice" None (inject_Z (Z.of_nat n)) "matrix" in
  let h := TvMovieSpec.add_commands (entry <$> seq 0 51) TvMovie.HistoryManager.init in
  length (TvMovie.HistoryManager.commands h) = 51
  ∧ TvMovie.HistoryManager.MAX_LENGTH < length (TvMovie.HistoryManager.commands h)
  ∧ TvMovie.HistoryManager.commands h !! 0 = Some (entry 0).
Proof.
  cbv zeta. rewrite add_commands_keeps_all. cbn [app TvMovie.HistoryManager.init].
  rewrite length_fmap, length_seq. split_and!; [done| |done].
  unfold TvMovie.HistoryManager.MAX_LENGTH. lia.
Qed.

(** * The chat-box pool *)

Section Pool.
Import FakeOpen FakeOpenSpec.

Lemma Qlt_bool_iff (a b : Q) : Qlt_bool a b = true ↔ (a < b)%Q.
Proof.
  unfold Qlt_bool. rewrite negb_true_iff, <- not_true_iff_false, Qle_bool_iff.
  split; [apply Qnot_le_lt|apply Qlt_not_le].
Qed.

Lemma is_expired_iff (now : Q) (self : ChatBox.t) :
  ChatBox.is_expired now self = true ↔ (ChatBox.expired self < now)%Q.
Proof. apply Qlt_bool_iff. Qed.

(** The scan keeps a box exactly when it is not expired. *)
Lemma discard_expired_lookup (now : Q) (boxes : gmap loc ChatBox.t) (box : loc) :
  ChatBoxPool.discard_expired now boxes !! box =
    match boxes !! box with
    | Some object => if ChatBox.is_expired now object then None else Some object
    | None => None
    end.
Proof.
  unfold ChatBoxPool.discard_expired.
  set (f := fun (box : loc) (object : ChatBox.t) (live : gmap loc ChatBox.t) =>
              if ChatBox.is_expired now object then delete box live else live).
  cut (∀ start seen : gmap loc ChatBox.t,
         map_fold f start seen !! box =
           match seen !! box with
           | Some object =>
               if ChatBox.is_expired now object then None else start !! box
           | None => start !! box
           end).
  { intros H. rewrite H. by destruct (boxes !! box) as [object|]. }
  intros start seen.
  apply (map_fold_weak_ind
    (fun (r : gmap loc ChatBox.t) (m : gmap loc ChatBox.t) =>
       r !! box = match m !! box with
                  | Some object =>
                      if ChatBox.is_expired now object then None else start !! box
                  | None => start !! box
                  end)).
  - by rewrite lookup_empty.
  - intros i x m r Hi IH. unfold f.
    destruct (decide (i = box)) as [->|Hne].
    + rewrite lookup_insert_eq. rewrite Hi in IH.
      destruct (ChatBox.is_expired now x); [apply lookup_delete_eq|done].
    + rewrite lookup_insert_ne by done.
      destruct (ChatBox.is_expired now x); [|done].
      by rewrite lookup_delete_ne.
Qed.

End Pool.

(** C8. [ask] sets the deadline of the box to the clock reading plus
    36000 seconds and yields what the backend yields, whatever that is:
    an answer, [None], or an exception. *)
Theorem ask_refreshes_expiry
    (now : Q) (gpt : FakeOpen.Backend) (question : string)
    (self : FakeOpen.ChatBox.t) :
  FakeOpen.ChatBox.expired (FakeOpen.ChatBox.ask now gpt question self).2
    = (now + 36000)%Q
  ∧ (FakeOpen.ChatBox.ask now gpt question self).1 = gpt question.
Proof. done. Qed.

Section Scan.
Import FakeOpen.

Lemma purge_early (now : Q) (self : ChatBoxPool.t) :
  (now < ChatBoxPool.next_purge_time self)%Q →
  ChatBoxPool.purge now self = (false, self).
Proof.
  unfold ChatBoxPool.purge. intros Hlt. apply Qlt_bool_iff in Hlt.
  by rewrite Hlt.
Qed.

Lemma purge_due (now : Q) (self : ChatBoxPool.t) :
  ¬ (now < ChatBoxPool.next_purge_time self)%Q →
  ∃ self', ChatBoxPool.purge now self = (true, self')
    ∧ ChatBoxPool.next_purge_time self' = (now + 60)%Q
    ∧ (∀ box object,
         ChatBoxPool.boxes self' !! box = Some object ↔
         ChatBoxPool.boxes self !! box = Some object
         ∧ ¬ (ChatBox.expired object < now)%Q)
    ∧ ChatBoxPool.map self' = ChatBoxPool.map self
    ∧ ChatBoxPool.created self' = ChatBoxPool.created self.
Proof.
  unfold ChatBoxPool.purge. intros Hge.
  destruct (Qlt_bool now _) eqn:Hb; [by apply Qlt_bool_iff in Hb|].
  eexists. split_and!; [done..| |done|done].
  intros box object. cbn. rewrite discard_expired_lookup.
  destruct (ChatBoxPool.boxes self !! box) as [o|];
    [|split; [done|by intros [? _]]].
  destruct (ChatBox.is_expired now o) eqn:He.
  - apply is_expired_iff in He.
    split; [done|]. intros [[= ->] Hn]. by destruct Hn.
  - split; [|by intros [? _]]. intros [= ->]. split; [done|].
    intros ?%is_expired_iff. congruence.
Qed.

End Scan.

(** C7. A [purge] called before the deadline returns false and leaves
    the pool as it is. Otherwise it returns true, the deadline becomes
    the clock reading plus 60, the boxes held afterwards are exactly
    those held before whose deadline has not passed, and a second call
    less than 60 seconds after this one returns false and changes
    nothing. *)
Theorem purge_rate_limited (now : Q) (self : FakeOpen.ChatBoxPool.t) :
  ((now < FakeOpen.ChatBoxPool.next_purge_time self)%Q →
     FakeOpen.ChatBoxPool.purge now self = (false, self))
  ∧ (¬ (now < FakeOpen.ChatBoxPool.next_purge_time self)%Q →
     ∃ self', FakeOpen.ChatBoxPool.purge now self = (true, self')
       ∧ FakeOpen.ChatBoxPool.next_purge_time self' = (now + 60)%Q
       ∧ (∀ box object,
            FakeOpen.ChatBoxPool.boxes self' !! box = Some object ↔
            FakeOpen.ChatBoxPool.boxes self !! box = Some object
            ∧ ¬ (FakeOpen.ChatBox.expired object < now)%Q)
       ∧ FakeOpen.ChatBoxPool.map self' = FakeOpen.ChatBoxPool.map self
       ∧ ∀ now', (now' < now + 60)%Q →
           FakeOpen.ChatBoxPool.purge now' self' = (false, self')).
Proof.
  split; [apply purge_early|]. intros Hdue.
  destruct (purge_due now self Hdue) as (self' & Hpurge & Hnext & Hkept & Hmap & _).
  exists self'. split_and!; [done..|].
  intros now' Hlt. apply purge_early. by rewrite Hnext.
Qed.

Section Reuse.
Import FakeOpen FakeOpenSpec.

Lemma get_box_found (now : Q) (identifier : ID) (p : ChatBoxPool.t) (box : loc) :
  ChatBoxPool.weak_get identifier p = Some box →
  ChatBoxPool.get_box now identifier p = (Some box, p).
Proof. unfold ChatBoxPool.get_box. by intros ->. Qed.

Lemma get_box_new (now : Q) (identifier : ID) (p : ChatBoxPool.t) :
  ChatBoxPool.weak_get identifier p = None →
  ChatBoxPool.get_box now identifier p =
    (Some (ChatBoxPool.created p),
     ChatBoxPool.mk (<[identifier := ChatBoxPool.created p]> (ChatBoxPool.map p))
       (<[ChatBoxPool.created p := ChatBox.init now]> (ChatBoxPool.boxes p))
       (ChatBoxPool.next_purge_time p) (S (ChatBoxPool.created p))).
Proof. unfold ChatBoxPool.get_box. by intros ->. Qed.

Lemma weak_get_Some (identifier : ID) (p : ChatBoxPool.t) (box : loc) :
  ChatBoxPool.weak_get identifier p = Some box ↔
  ChatBoxPool.map p !! identifier = Some box
  ∧ is_Some (ChatBoxPool.boxes p !! box).
Proof.
  unfold ChatBoxPool.weak_get.
  destruct (ChatBoxPool.map p !! identifier) as [b|]; cbn.
  - destruct (ChatBoxPool.boxes p !! b) as [o|] eqn:Hb.
    + split; [intros [= <-]; by rewrite Hb|by intros [[= <-] _]].
    + split; [done|]. intros [[= <-] [? Hs]]. congruence.
  - split; [done|by intros [? _]].
Qed.

Lemma get_box_names (now : Q) (identifier : ID) (p : ChatBoxPool.t)
    (box : loc) (p' : ChatBoxPool.t) :
  numbered p →
  ChatBoxPool.get_box now identifier p = (Some box, p') →
  names identifier box p' ∧ is_Some (ChatBoxPool.boxes p' !! box).
Proof.
  intros Hnum Hget.
  destruct (ChatBoxPool.weak_get identifier p) as [b|] eqn:Hw.
  - rewrite (get_box_found _ _ _ _ Hw) in Hget. injection Hget as -> ->.
    apply weak_get_Some in Hw as [Hm Hb]. split; [|done].
    split_and!; [done|by apply Hnum|done].
  - rewrite (get_box_new _ _ _ Hw) in Hget. injection Hget as <- <-. cbn.
    split; [|by rewrite lookup_insert_eq].
    split_and!; cbn.
    + intros b. destruct (decide (ChatBoxPool.created p = b)) as [<-|Hne].
      { intros _. cbn. lia. }
      cbn. rewrite lookup_insert_ne by done. intros Hb%Hnum. lia.
    + lia.
    + intros _. by rewrite lookup_insert_eq.
Qed.

Lemma pool_step_names (identifier : ID) (box : loc) (op : PoolOp)
    (p : ChatBoxPool.t) :
  names identifier box p → names identifier box (pool_step op p).
Proof.
  intros (Hnum & Hlt & Hname).
  destruct op as [now identifier'|now gpt question b|now]; cbn.
  - destruct (ChatBoxPool.weak_get identifier' p) as [b|] eqn:Hw.
    { by rewrite (get_box_found _ _ _ _ Hw). }
    rewrite (get_box_new _ _ _ Hw). cbn. split_and!; cbn.
    + intros b. destruct (decide (ChatBoxPool.created p = b)) as [<-|Hne].
      { intros _. cbn. lia. }
      cbn. rewrite lookup_insert_ne by done. intros Hb%Hnum. lia.
    + lia.
    + rewrite lookup_insert_ne by lia. intros Hb.
      destruct (decide (identifier' = identifier)) as [->|Hne].
      * assert (ChatBoxPool.weak_get identifier p = Some box) as Hw'
          by (apply weak_get_Some; auto). congruence.
      * rewrite lookup_insert_ne by done. auto.
  - destruct (ChatBoxPool.boxes p !! b) as [object|] eqn:Hb; [|done].
    assert (∀ k, is_Some (<[b := (ChatBox.ask now gpt question object).2]>
                            (ChatBoxPool.boxes p) !! k)
                 → is_Some (ChatBoxPool.boxes p !! k)) as Hsame.
    { intros k. destruct (decide (b = k)) as [<-|Hne].
      - by rewrite Hb.
      - by rewrite lookup_insert_ne. }
    split_and!; [unfold numbered; cbn; intros ? ?%Hsame; auto|done|].
    cbn. intros ?%Hsame. auto.
  - unfold ChatBoxPool.purge. destruct (Qlt_bool now _); [done|]. cbn.
    assert (∀ k, is_Some (ChatBoxPool.discard_expired now (ChatBoxPool.boxes p) !! k)
                 → is_Some (ChatBoxPool.boxes p !! k)) as Hsub.
    { intros k. rewrite discard_expired_lookup.
      destruct (ChatBoxPool.boxes p !! k); [done|]. by intros [? ?]. }
    split_and!; [unfold numbered; cbn; intros ? ?%Hsub; auto|done|].
    cbn. intros ?%Hsub. auto.
Qed.

Lemma pool_run_names (identifier : ID) (box : loc) (ops : list PoolOp)
    (p : ChatBoxPool.t) :
  names identifier box p → names identifier box (pool_run ops p).
Proof.
  revert p. induction ops as [|op ops IH]; intros p Hp; [done|].
  cbn. by apply IH, pool_step_names.
Qed.

End Reuse.

(** C9. Let [get_box] return [box] for a user. Whatever happens to the
    pool afterwards, as long as the pool still holds [box] a [get_box]
    for the same user returns [box] and changes nothing: no box is
    constructed, and the deadline of [box] is not looked at. Once a
    [purge] has run its scan at a time when the deadline of [box] has
    passed, the pool no longer holds [box], and the next [get_box] for
    the user constructs a box under a new identity and returns it. *)
Theorem get_box_reuses_until_purged
    (p0 p1 : FakeOpen.ChatBoxPool.t) (now0 : Q) (identifier : ID) (box : loc)
    (ops : list FakeOpenSpec.PoolOp) :
  FakeOpenSpec.numbered p0 →
  FakeOpen.ChatBoxPool.get_box now0 identifier p0 = (Some box, p1) →
  let p := FakeOpenSpec.pool_run ops p1 in
  (is_Some (FakeOpen.ChatBoxPool.boxes p !! box) →
     ∀ now, FakeOpen.ChatBoxPool.get_box now identifier p = (Some box, p))
  ∧ (∀ t object now,
       FakeOpen.ChatBoxPool.boxes p !! box = Some object →
       (FakeOpen.ChatBox.expired object < t)%Q →
       ¬ (t < FakeOpen.ChatBoxPool.next_purge_time p)%Q →
       ∃ p' box' p'',
         FakeOpen.ChatBoxPool.purge t p = (true, p')
         ∧ FakeOpen.ChatBoxPool.boxes p' !! box = None
         ∧ FakeOpen.ChatBoxPool.get_box now identifier p' = (Some box', p'')
         ∧ box' ≠ box
         ∧ FakeOpen.ChatBoxPool.boxes p' !! box' = None
         ∧ FakeOpen.ChatBoxPool.boxes p'' !! box'
             = Some (FakeOpen.ChatBox.init now)
         ∧ FakeOpen.ChatBoxPool.weak_get identifier p'' = Some box').
Proof.
  intros Hnum Hget p.
  destruct (get_box_names _ _ _ _ _ Hnum Hget) as [Hnames _].
  apply (pool_run_names _ _ ops) in Hnames. fold p in Hnames.
  destruct Hnames as (Hnum' & Hlt & Hname). split.
  - intros Hheld now. apply get_box_found, weak_get_Some. auto.
  - intros t object now Hbox Hexp Hdue.
    destruct (purge_due t p Hdue) as (p' & Hpurge & _ & Hkept & Hmap & Hcreated).
    assert (FakeOpen.ChatBoxPool.boxes p' !! box = None) as Hgone.
    { destruct (FakeOpen.ChatBoxPool.boxes p' !! box) as [o|] eqn:Ho; [|done].
      apply Hkept in Ho as [Ho Hn]. rewrite Hbox in Ho.
      injection Ho as ->. by destruct Hn. }
    assert (FakeOpen.ChatBoxPool.weak_get identifier p' = None) as Hweak.
    { unfold FakeOpen.ChatBoxPool.weak_get.
      rewrite Hmap, Hname by (by rewrite Hbox). by rewrite Hgone. }
    eexists p', _, _. split_and!; [done|done|by apply get_box_new|..].
    + rewrite Hcreated. lia.
    + destruct (FakeOpen.ChatBoxPool.boxes p'
                  !! FakeOpen.ChatBoxPool.created p') as [o|] eqn:Ho; [|done].
      apply Hkept in Ho as [Ho _].
      assert (FakeOpen.ChatBoxPool.created p' < FakeOpen.ChatBoxPool.created p).
      { by apply Hnum'. }
      lia.
    + cbn. by rewrite lookup_insert_eq.
    + apply weak_get_Some. cbn. by rewrite !lookup_insert_eq.
Qed.

(** * The worker *)

Section Worker.
Import FakeOpen FakeOpenSpec.

Lemma answered_app (a b : list Event) :
  answered (a ++ b) = answered a ++ answered b.
Proof.
  induction a as [|[msg|callback answer request] a IH]; cbn; [done..|].
  by rewrite IH.
Qed.

Lemma responses_app (a b : list Event) :
  responses (a ++ b) = responses a ++ responses b.
Proof.
  induction a as [|[msg|callback answer request] a IH]; cbn; [done..|].
  by rewrite IH.
Qed.

(** [get_box] always yields a box the pool holds: the one found, or
    the one just constructed. *)
Lemma get_box_yields (now : Q) (identifier : ID) (p : ChatBoxPool.t) :
  ∃ box pool object,
    ChatBoxPool.get_box now identifier p = (Some box, pool)
    ∧ ChatBoxPool.boxes pool !! box = Some object.
Proof.
  destruct (ChatBoxPool.weak_get identifier p) as [box|] eqn:Hw.
  - rewrite (get_box_found _ _ _ _ Hw).
    apply weak_get_Some in Hw as [_ [object Hobject]]. by eexists _, _, _.
  - rewrite (get_box_new _ _ _ Hw). eexists _, _, _. split; [done|].
    cbn. apply lookup_insert_eq.
Qed.

(** [process] with a task at the head of the queue and a backend that
    returns. *)
Lemma process_task (clock : Clock) (gpt : Backend) (self : ChatClient.t)
    (task : ChatTask) (rest : list ChatTask) :
  ChatClient.task_pool self = task :: rest →
  returns gpt →
  ∃ self' errors,
    ChatClient.process clock gpt self = (Ok true, self')
    ∧ ChatClient.task_pool self' = rest
    ∧ ChatClient.log self' = ChatClient.log self ++ errors ++ [response task gpt]
    ∧ responses errors = [] ∧ answered errors = [].
Proof.
  intros Htask Hgpt. unfold ChatClient.process. rewrite Htask. cbn.
  destruct (Hgpt (question (request task))) as [answer Hanswer].
  destruct (get_box_yields (at_init clock) (identifier (request task))
              (ChatClient.box_pool self)) as (box & pool & object & -> & ->).
  unfold ChatBox.ask, response, payload. cbn. rewrite Hanswer.
  destruct answer as [answer|].
  - eexists _, []. by split_and!.
  - eexists _, [_]. by split_and!.
Qed.

(** [process] with a task at the head of the queue and a backend that
    raises: the exception leaves [process], the task is out of the
    queue, its box has been refreshed and no callback is invoked. *)
Lemma process_backend_raises (clock : Clock) (gpt : Backend)
    (self : ChatClient.t) (task : ChatTask) (rest : list ChatTask)
    (error : string) :
  ChatClient.task_pool self = task :: rest →
  gpt (question (request task)) = Raise error →
  ∃ self',
    ChatClient.process clock gpt self = (Raise error, self')
    ∧ ChatClient.task_pool self' = rest
    ∧ ChatClient.log self' = ChatClient.log self.
Proof.
  intros Htask Hgpt. unfold ChatClient.process. rewrite Htask. cbn.
  destruct (get_box_yields (at_init clock) (identifier (request task))
              (ChatClient.box_pool self)) as (box & pool & object & -> & ->).
  unfold ChatBox.ask. cbn. rewrite Hgpt. by eexists.
Qed.

(** Whatever the backend does, the box that [process] puts the question
    to is left in the pool with its deadline refreshed. *)
Lemma process_refreshes_box (clock : Clock) (gpt : Backend)
    (self : ChatClient.t) (task : ChatTask) (rest : list ChatTask) :
  ChatClient.task_pool self = task :: rest →
  ∃ box,
    (ChatBoxPool.get_box (at_init clock) (identifier (request task))
       (ChatClient.box_pool self)).1 = Some box
    ∧ ChatBoxPool.boxes (ChatClient.box_pool (ChatClient.process clock gpt self).2)
        !! box = Some (ChatBox.mk (at_prepare clock + 36000)).
Proof.
  intros Htask. unfold ChatClient.process. rewrite Htask. cbn.
  destruct (get_box_yields (at_init clock) (identifier (request task))
              (ChatClient.box_pool self)) as (box & pool & object & -> & ->).
  exists box. split; [done|]. unfold ChatBox.ask. cbn.
  destruct (gpt _) as [[answer|]|error]; cbn; apply lookup_insert_eq.
Qed.

(** [process] with an empty queue. *)
Lemma process_idle (clock : Clock) (gpt : Backend) (self : ChatClient.t) :
  ChatClient.task_pool self = [] →
  ∃ self', ChatClient.process clock gpt self = (Ok false, self')
    ∧ ChatClient.task_pool self' = []
    ∧ ChatClient.log self' = ChatClient.log self.
Proof.
  intros Htask. unfold ChatClient.process. rewrite Htask. cbn.
  destruct ChatBoxPool.purge. by eexists.
Qed.

Lemma task_eta (task : ChatTask) :
  mkChatTask (request task) (callback task) = task.
Proof. by destruct task. Qed.

Lemma client_run_cons (op : ClientOp) (ops : list ClientOp) (c : ChatClient.t) :
  client_run (op :: ops) c = client_run ops (client_step op c).
Proof. done. Qed.

(** Accepted tasks are pending or answered, each one once. *)
Lemma client_run_accounts (ops : list ClientOp) (c : ChatClient.t) :
  Forall op_returns ops →
  answered (ChatClient.log (client_run ops c))
      ++ ChatClient.task_pool (client_run ops c)
    = answered (ChatClient.log c) ++ ChatClient.task_pool c ++ accepted ops.
Proof.
  intros Hops. revert c.
  induction Hops as [|[question identifier callback|clock gpt] ops Hop _ IH];
    intros c.
  - cbn. by rewrite app_nil_r.
  - rewrite client_run_cons, IH. cbn.
    unfold ChatTaskPool.add_task. by rewrite <- !app_assoc.
  - rewrite client_run_cons, IH. cbn [client_step accepted].
    destruct (ChatClient.task_pool c) as [|task rest] eqn:Htask.
    + destruct (process_idle clock gpt c Htask) as (c' & Hp & Hrest & Hlog).
      rewrite Hp. cbn [snd]. by rewrite Hrest, Hlog.
    + destruct (process_task clock gpt c task rest Htask Hop)
        as (c' & errors & Hp & Hrest & Hlog & _ & Herrors).
      rewrite Hp. cbn [snd]. rewrite Hrest, Hlog, !answered_app, Herrors.
      unfold response. cbn. rewrite task_eta. by rewrite <- !app_assoc.
Qed.

(** The worker empties the queue, answering each task in turn. *)
Lemma worker_drains (turns : list (Clock * Backend)) (c : ChatClient.t) :
  length turns = length (ChatClient.task_pool c) →
  Forall (fun turn => returns turn.2) turns →
  ChatClient.task_pool (client_run (worker turns) c) = []
  ∧ responses (ChatClient.log (client_run (worker turns) c))
      = responses (ChatClient.log c)
          ++ zip_with (fun task turn => response task turn.2)
               (ChatClient.task_pool c) turns.
Proof.
  revert c. induction turns as [|[clock gpt] turns IH]; intros c Hlen Hturns.
  - cbn in *. destruct (ChatClient.task_pool c); [|done].
    by rewrite app_nil_r.
  - destruct (ChatClient.task_pool c) as [|task rest] eqn:Htask; [done|].
    apply Forall_cons in Hturns as [Hgpt Hturns].
    destruct (process_task clock gpt c task rest Htask Hgpt)
      as (c' & errors & Hp & Hrest & Hlog & Herrors & _).
    unfold worker. rewrite fmap_cons, client_run_cons. cbn [client_step fst snd].
    rewrite Hp. cbn [snd]. fold (worker turns).
    destruct (IH c') as [-> ->].
    + rewrite Hrest. by injection Hlen.
    + done.
    + split; [done|]. rewrite Hlog, Hrest, !responses_app, Herrors. cbn.
      by rewrite <- app_assoc.
Qed.

End Worker.

(** C6. With a backend that returns, [process] takes the task at the
    head of the queue out of it and invokes that task's callback once,
    with the backend's answer, or with the fixed 404 payload when the
    backend gave [None]. Along any run of [request] and [process] calls
    the accepted tasks are, in order, those answered followed by those
    still queued, so none is lost and none answered twice; and one
    [process] call per queued task empties the queue, answering the
    tasks in queue order. *)
Theorem accepted_task_gets_one_callback :
  (∀ clock gpt self task rest,
     FakeOpen.ChatClient.task_pool self = task :: rest →
     FakeOpenSpec.returns gpt →
     ∃ self' errors,
       FakeOpen.ChatClient.process clock gpt self = (Ok true, self')
       ∧ FakeOpen.ChatClient.task_pool self' = rest
       ∧ FakeOpen.ChatClient.log self'
           = FakeOpen.ChatClient.log self ++ errors
               ++ [FakeOpen.ChatResponse (FakeOpen.callback task)
                     (match gpt (FakeOpen.question (FakeOpen.request task)) with
                      | Ok (Some answer) => answer
                      | _ => FakeOpen.ChatClient.no_response
                      end)
                     (FakeOpen.request task)]
       ∧ FakeOpenSpec.responses errors = [])
  ∧ (∀ ops,
       Forall FakeOpenSpec.op_returns ops →
       let c := FakeOpenSpec.client_run ops FakeOpen.ChatClient.init in
       FakeOpenSpec.answered (FakeOpen.ChatClient.log c)
           ++ FakeOpen.ChatClient.task_pool c
         = FakeOpenSpec.accepted ops)
  ∧ (∀ turns c,
       length turns = length (FakeOpen.ChatClient.task_pool c) →
       Forall (fun turn => FakeOpenSpec.returns turn.2) turns →
       let c' := FakeOpenSpec.client_run (FakeOpenSpec.worker turns) c in
       FakeOpen.ChatClient.task_pool c' = []
       ∧ FakeOpenSpec.responses (FakeOpen.ChatClient.log c')
           = FakeOpenSpec.responses (FakeOpen.ChatClient.log c)
               ++ zip_with (fun task turn => FakeOpenSpec.response task turn.2)
                    (FakeOpen.ChatClient.task_pool c) turns).
Proof.
  split_and!.
  - intros clock gpt self task rest Htask Hgpt.
    destruct (process_task clock gpt self task rest Htask Hgpt)
      as (self' & errors & ? & ? & ? & ? & _).
    by exists self', errors.
  - intros ops Hops c. subst c.
    by rewrite (client_run_accounts ops FakeOpen.ChatClient.init Hops).
  - intros turns c Hlen Hturns. by apply worker_drains.
Qed.

(** * The theorems at concrete inputs *)

Section Witnesses.
Import TvMovie TvMovieSpec Scenario.

Lemma search_promotes_successful_engine_witness :
  ∃ w', SearchBox._search third_succeeds None alice matrix w0 = (Ok true, w')
    ∧ lists w' !! 0 = Some [C; A; B].
Proof.
  destruct (search_promotes_successful_engine third_succeeds None alice matrix
              w0 [A; B; C] 2 C) as (w' & Hs & Hpos & _).
  - reflexivity.
  - reflexivity.
  - intros [|[|j]] e Hj He; [injection He as <-|injection He as <-|lia];
      unfold continues, CANCELLED_CODE; cbn; lia.
  - reflexivity.
  - exists w'. split; [exact Hs|]. apply Hpos. lia.
Defined.

Lemma search_cancelled_stops_dispatch_witness :
  SearchBox._search second_cancelled None alice matrix w0
    = (Ok false, w0_cancelled)
  ∧ lists w0_cancelled = lists w0
  ∧ new_events w0 w0_cancelled
      = [Search 0 A matrix; LogError; ReportFailure "SearchBox" "alpha";
         Search 1 B matrix]
  ∧ count_events is_crash (new_events w0 w0_cancelled) = 0.
Proof.
  split; [reflexivity|].
  destruct (search_cancelled_stops_dispatch second_cancelled None alice matrix
              w0 w0_cancelled [A; B; C] 1 B (Ok false))
    as (_ & Hlists & Hnew & _ & Hcrash & _).
  - reflexivity.
  - reflexivity.
  - vm_compute. do 3 apply list_elem_of_further. apply list_elem_of_here.
  - reflexivity.
  - split_and!; [exact Hlists|exact Hnew|exact Hcrash].
Defined.

Lemma search_all_failed_reports_one_crash_witness :
  ∃ w', SearchBox._search all_down None alice matrix w0 = (Ok false, w')
    ∧ count_events is_crash (new_events w0 w') = 1
    ∧ ReportCrash SearchBox.service ∈ new_events w0 w'.
Proof.
  apply (search_all_failed_reports_one_crash all_down None alice matrix w0
           [A; B; C]).
  - reflexivity.
  - discriminate.
  - intros j e _. unfold fails, CANCELLED_CODE. cbn. lia.
Defined.

Lemma search_exhausted_sends_no_result_witness :
  ∃ r w', SearchBox._search none_found (Some ["dune"; "alien"]) alice matrix w0
            = (Ok r, w')
    ∧ _respond_204 (Some ["dune"; "alien"]) "matrix" (request matrix)
        ∈ new_events w0 w'
    ∧ count_events is_response (new_events w0 w') = 1.
Proof.
  apply (search_exhausted_sends_no_result none_found (Some ["dune"; "alien"])
           alice matrix w0 [A; B; C]).
  - reflexivity.
  - discriminate.
  - intros [|[|[|j]]] e He; [injection He as <-..|discriminate];
      unfold continues, CANCELLED_CODE; cbn; lia.
Defined.

Lemma boxes_do_not_share_engine_lists_witness :
  let s := run two_boxes boot in
  let w' := (SearchBox._search third_succeeds None (SearchBox.mk "alice" 1)
               matrix (world s)).2 in
  lists (world s) !! 1 = Some [A; B; C]
  ∧ lists w' !! 1 = Some [C; A; B]
  ∧ lists w' !! 0 = Some [A; B; C]
  ∧ lists w' !! 2 = Some [A; B; C].
Proof.
  destruct (boxes_do_not_share_engine_lists two_boxes) as [_ Hframe].
  destruct (Hframe 0 (SearchBox.mk "alice" 1) third_succeeds None matrix eq_refl)
    as [Hmaster Hothers].
  specialize (Hothers 1 (SearchBox.mk "bob" 2)).
  split_and!.
  - reflexivity.
  - reflexivity.
  - etrans; [exact Hmaster|reflexivity].
  - etrans; [apply Hothers; [lia|reflexivity]|reflexivity].
Defined.

End Witnesses.

Section PoolWitnesses.
Import FakeOpen FakeOpenSpec Scenario.

Lemma purge_rate_limited_witness :
  ChatBoxPool.purge 99 scanned = (false, scanned)
  ∧ ∃ self', ChatBoxPool.purge 40000 scanned = (true, self')
      ∧ ChatBoxPool.next_purge_time self' = (40000 + 60)%Q
      ∧ ChatBoxPool.boxes self' !! 0 = None
      ∧ ChatBoxPool.purge 40059 self' = (false, self').
Proof.
  split.
  - apply (purge_rate_limited 99 scanned). reflexivity.
  - destruct (purge_rate_limited 40000 scanned) as [_ Hscan].
    destruct Hscan as (self' & Hpurge & Hnext & Hkept & _ & Hagain).
    { intros Hlt. vm_compute in Hlt. discriminate. }
    exists self'. split_and!; [exact Hpurge|exact Hnext| |].
    + destruct (ChatBoxPool.boxes self' !! 0) as [object|] eqn:Hbox; [|done].
      apply Hkept in Hbox as [Hbox Hlive]. vm_compute in Hbox.
      injection Hbox as <-. destruct Hlive. reflexivity.
    + apply Hagain. reflexivity.
Defined.

Lemma get_box_reuses_until_purged_witness :
  let p := pool_run later alice_first in
  ChatBoxPool.get_box 999999 "alice" p = (Some 0, p)
  ∧ ∃ p' box' p'',
      ChatBoxPool.purge 50000 p = (true, p')
      ∧ ChatBoxPool.boxes p' !! 0 = None
      ∧ ChatBoxPool.get_box 50001 "alice" p' = (Some box', p'')
      ∧ box' ≠ 0
      ∧ ChatBoxPool.boxes p'' !! box' = Some (ChatBox.init 50001).
Proof.
  assert (numbered ChatBoxPool.init) as Hnum.
  { intros box [object Hbox]. cbn in Hbox.
    rewrite lookup_empty in Hbox. discriminate. }
  destruct (get_box_reuses_until_purged ChatBoxPool.init alice_first 0 "alice" 0
              later Hnum eq_refl) as [Hheld Hpurged].
  split.
  - apply Hheld. eexists. vm_compute. reflexivity.
  - destruct (Hpurged 50000%Q (ChatBox.mk 36100) 50001%Q)
      as (p' & box' & p'' & H1 & H2 & H3 & H4 & _ & H5 & _).
    + vm_compute. reflexivity.
    + reflexivity.
    + intros Hlt. vm_compute in Hlt. discriminate.
    + by exists p', box', p''.
Defined.

Lemma accepted_task_gets_one_callback_witness :
  (∃ self' errors,
     ChatClient.process noon silent one_queued = (Ok true, self')
     ∧ ChatClient.task_pool self' = []
     ∧ ChatClient.log self'
         = ChatClient.log one_queued ++ errors
             ++ [ChatResponse 7 ChatClient.no_response (mkChatRequest "hi" "alice")]
     ∧ responses errors = [])
  ∧ (let c := client_run session ChatClient.init in
     answered (ChatClient.log c) ++ ChatClient.task_pool c
       = [mkChatTask (mkChatRequest "hi" "alice") 7;
          mkChatTask (mkChatRequest "there" "alice") 8])
  ∧ ChatClient.task_pool (client_run (worker [(noon, echo)]) one_queued) = [].
Proof.
  destruct accepted_task_gets_one_callback as (Hstep & Hrun & Hdrain).
  split_and!.
  - apply (Hstep noon silent one_queued
             (mkChatTask (mkChatRequest "hi" "alice") 7) []).
    + reflexivity.
    + intros question. by exists None.
  - apply (Hrun session). repeat constructor. intros question. by eexists.
  - apply (Hdrain [(noon, echo)] one_queued).
    + reflexivity.
    + repeat constructor. intros question. by eexists.
Defined.

End PoolWitnesses.

(** * How a dispatch ends *)

Section Endings.
Import TvMovie TvMovie.SearchBox TvMovieSpec DispatchSpec.

(** The engines that let the loop go on, and what stops it. *)
Lemma continuing_prefix (search : Oracle) (task : Task) (l : list Engine)
    (index : nat) :
  ∃ pre post, l = pre ++ post
    ∧ (∀ j e, pre !! j = Some e → continues (search (index + j) e task))
    ∧ (post = []
       ∨ ∃ e post', post = e :: post'
           ∧ ((0 < code_of (search (index + length pre)%nat e task))%Z
              ∨ search (index + length pre) e task = Returns CANCELLED_CODE)).
Proof.
  revert index. induction l as [|e l IH]; intros index.
  { exists [], []. split_and!; [done| |by left].
    intros j e Hj. by rewrite lookup_nil in Hj. }
  destruct (Z.ltb_spec 0 (code_of (search index e task))) as [Hpos|Hle].
  { exists [], (e :: l). split_and!; [done| |].
    - intros j e' Hj. by rewrite lookup_nil in Hj.
    - right. exists e, l. cbn. rewrite Nat.add_0_r. auto. }
  destruct (Z.eqb_spec (code_of (search index e task)) CANCELLED_CODE)
    as [Hcan|Hne].
  { exists [], (e :: l). split_and!; [done| |].
    - intros j e' Hj. by rewrite lookup_nil in Hj.
    - right. exists e, l. cbn. rewrite Nat.add_0_r. split; [done|]. right.
      destruct (search index e task) as [code|error]; cbn in Hcan.
      + by rewrite Hcan.
      + discriminate. }
  destruct (IH (S index)) as (pre & post & -> & Hpre & Hpost).
  exists (e :: pre), post. split_and!; [done| |].
  - intros [|j] e'; cbn.
    + intros [= <-]. by rewrite Nat.add_0_r.
    + rewrite Nat.add_succ_r. apply Hpre.
  - cbn. by rewrite Nat.add_succ_r.
Qed.

(** Every dispatch ends in one of the four ways. *)
Lemma _search_ending (search : Oracle) (history : option (list string))
    (self : SearchBox.t) (task : Task) (w : World) (l : list Engine) :
  lists w !! engines self = Some l →
  ∃ r evs w',
    _search search history self task w = (r, w')
    ∧ log w' = log w ++ evs
    ∧ Ending search history self task w l r evs (lists w').
Proof.
  intros Hl.
  destruct l as [|e0 l0] eqn:Heq.
  { unfold _search. rewrite Hl. cbn. eexists _, _, _.
    split_and!; [done|done|].
    exact (NoEngines search history self task w [] eq_refl). }
  rewrite <- Heq in *. assert (l ≠ []) as Hne by by rewrite Heq.
  assert (length l ≠ 0) as Hlen by by rewrite Heq.
  clear Heq e0 l0.
  destruct (continuing_prefix search task l 0)
    as (pre & post & Hsplit & Hpre & Hpost).
  cbn [Nat.add] in *.
  destruct Hpost as [->|(e & post' & -> & Hstop)].
  - rewrite app_nil_r in Hsplit. subst pre.
    unfold _search. rewrite Hl.
    rewrite (try_engines_exhausted search task l Hpre).
    destruct (Nat.eqb_spec (length l) 0) as [?|_]; [done|].
    rewrite Nat.eqb_refl, Nat.ltb_irrefl, andb_false_r, !emit_emit.
    destruct (failed_among search task l 0 =? length l) eqn:Hall.
    + eexists _, _, _. split_and!; [done|done|].
      pose proof (Exhausted search history self task w l Hne Hpre) as H.
      rewrite Hall in H. exact H.
    + eexists _, _, _. split_and!; [done|done|].
      pose proof (Exhausted search history self task w l Hne Hpre) as H.
      rewrite Hall in H. exact H.
  - assert (l !! length pre = Some e) as Hk
      by (subst l; by rewrite list_lookup_middle).
    assert (take (length pre) l = pre) as Htake
      by (subst l; by rewrite take_app_length).
    assert (∀ j e', j < length pre → l !! j = Some e' →
                    continues (search j e' task)) as Hbefore.
    { intros j e' Hj He'. apply Hpre. subst l.
      by rewrite lookup_app_l in He'. }
    pose proof (lookup_lt_Some _ _ _ Hk) as Hlt.
    destruct Hstop as [Hpos|Hcan].
    + pose proof (failed_among_le search task (take (length pre) l) 0) as Hfail.
      rewrite length_take in Hfail.
      unfold _search. rewrite Hl.
      rewrite (try_engines_success search task l _ e Hk Hbefore Hpos).
      destruct (Nat.eqb_spec (length l) 0) as [?|_]; [done|].
      destruct (Nat.eqb_spec (length pre) (length l)) as [?|_]; [lia|].
      destruct (Nat.eqb_spec
        (failed_among search task (take (length pre) l) 0) (length l))
        as [?|_]; [lia|].
      pose proof (Succeeded search history self task w l _ e Hk Hbefore Hpos)
        as H.
      destruct (length pre) as [|k] eqn:Hpre_len.
      * cbn. eexists _, _, _. split_and!; [done|done|].
        cbn in H. exact H.
      * assert ((0 <? S k) && (S k <? length l) = true) as ->.
        { apply andb_true_iff. split; [done|]. apply Nat.ltb_lt. lia. }
        unfold list_pop. rewrite Hk. eexists _, _, _.
        split_and!; [done| |].
        -- cbn. by rewrite <- !app_assoc.
        -- cbn in H |- *. rewrite <- app_assoc. exact H.
    + unfold _search. rewrite Hl.
      destruct (Nat.eqb_spec (length l) 0) as [?|_]; [done|].
      assert (try_engines search task l 0 0 =
                (Cancelled, attempts search task pre 0
                              ++ [Search (length pre) e task])) as ->.
      { rewrite Hsplit, try_engines_skip by done. cbn. by rewrite Hcan. }
      eexists _, _, _. split_and!; [done|done|].
      pose proof (Stopped search history self task w l _ e Hk Hbefore Hcan) as H.
      by rewrite Htake in H.
Qed.

End Endings.

Section Reports.
Import TvMovie TvMovie.SearchBox TvMovieSpec DispatchSpec.

Lemma attempts_no_success (search : Oracle) (task : Task)
    (pre : list Engine) (index : nat) :
  count_events is_success_report (attempts search task pre index) = 0.
Proof.
  apply count_events_none. intros ev Hin.
  by destruct (attempts_events _ _ _ _ _ Hin)
    as [(? & ? & _ & ->)|[->|(? & ? & _ & -> & _)]].
Qed.

Lemma attempts_failures (search : Oracle) (task : Task)
    (pre : list Engine) (index : nat) :
  count_events is_failure_report (attempts search task pre index)
    = failed_among search task pre index.
Proof.
  revert index. induction pre as [|e pre IH]; intros index; [done|].
  cbn [attempts failed_among].
  change (Search index e task :: ?l) with ([Search index e task] ++ l).
  rewrite !count_events_app, IH.
  assert (count_events is_failure_report (caught (search index e task)) = 0)
    as -> by by destruct (search index e task).
  by destruct (code_of (search index e task) <? 0)%Z.
Qed.

Lemma calls_app (a b : list Event) : calls (a ++ b) = calls a ++ calls b.
Proof.
  induction a as [|ev a IH]; [done|]. destruct ev; cbn; by rewrite ?IH.
Qed.

Lemma calls_caught (out : Outcome) : calls (caught out) = [].
Proof. by destruct out. Qed.

Lemma calls_attempts (search : Oracle) (task : Task) (pre : list Engine)
    (index : nat) :
  calls (attempts search task pre index) = numbered_from index pre.
Proof.
  revert index. induction pre as [|e pre IH]; intros index; [done|].
  cbn [attempts numbered_from calls]. rewrite !calls_app, calls_caught, IH.
  by destruct (code_of (search index e task) <? 0)%Z.
Qed.

Lemma numbered_from_snoc (index : nat) (l : list Engine) (e : Engine) :
  numbered_from index (l ++ [e])
    = numbered_from index l ++ [(index + length l, e)].
Proof.
  revert index. induction l as [|x l IH]; intros index; cbn.
  - by rewrite Nat.add_0_r.
  - by rewrite IH, Nat.add_succ_r.
Qed.

Lemma failed_among_some_zero (search : Oracle) (task : Task)
    (l : list Engine) (index : nat) (j : nat) (e : Engine) :
  l !! j = Some e →
  ¬ (code_of (search (index + j)%nat e task) < 0)%Z →
  failed_among search task l index < length l.
Proof.
  revert index j. induction l as [|x l IH]; intros index j; [done|].
  destruct j as [|j]; cbn [failed_among length].
  - intros [= ->]. rewrite Nat.add_0_r. intros Hnn.
    pose proof (failed_among_le search task l (S index)).
    assert ((code_of (search index e task) <? 0)%Z = false) as -> by lia. lia.
  - cbn. intros Hj Hnn. rewrite Nat.add_succ_r in Hnn.
    specialize (IH (S index) j Hj Hnn).
    destruct (_ <? _)%Z; lia.
Qed.

End Reports.

(** X2. A dispatch never loses, duplicates or adds an engine: the list
    of the box afterwards is a permutation of the list before. *)
Theorem search_keeps_engines
    (search : TvMovie.Oracle) (history : option (list string))
    (self : TvMovie.SearchBox.t) (task : TvMovie.Task) (w : TvMovie.World)
    (l : list TvMovie.Engine) :
  TvMovie.lists w !! TvMovie.SearchBox.engines self = Some l →
  ∃ l', TvMovie.lists
          (TvMovie.SearchBox._search search history self task w).2
          !! TvMovie.SearchBox.engines self = Some l'
    ∧ l' ≡ₚ l ∧ length l' = length l.
Proof.
  intros Hl.
  destruct (_search_ending search history self task w l Hl)
    as (r & evs & w' & Hs & Hlog & Hend).
  rewrite Hs. cbn [snd].
  assert (∃ l', TvMovie.lists w' !! TvMovie.SearchBox.engines self = Some l'
                ∧ l' ≡ₚ l) as (l' & Hl' & Hperm).
  { remember (TvMovie.lists w') as m eqn:Hm.
    destruct Hend as [ | |k engine Hk _ _| ];
      try by (exists l; split; [congruence|done]).
    destruct k as [|k]; cbn.
    - exists l. by split.
    - exists (engine :: delete (S k) l). split.
      + by rewrite lookup_insert_eq.
      + symmetry. by apply delete_Permutation. }
  exists l'. split_and!; [done..|]. by rewrite Hperm.
Qed.

(** X3. A dispatch calls the engines in list order from the front,
    each at most once and without skipping: the calls it makes are those
    of the first [k] engines, for some [k]. *)
Theorem search_calls_a_prefix_in_order
    (search : TvMovie.Oracle) (history : option (list string))
    (self : TvMovie.SearchBox.t) (task : TvMovie.Task) (w : TvMovie.World)
    (l : list TvMovie.Engine) :
  TvMovie.lists w !! TvMovie.SearchBox.engines self = Some l →
  ∃ k, k ≤ length l
    ∧ DispatchSpec.calls
        (TvMovieSpec.new_events w
           (TvMovie.SearchBox._search search history self task w).2)
      = DispatchSpec.numbered_from 0 (take k l).
Proof.
  intros Hl.
  destruct (_search_ending search history self task w l Hl)
    as (r & evs & w' & Hs & Hlog & Hend).
  rewrite Hs. cbn [snd]. rewrite (new_events_log evs w w' Hlog).
  destruct Hend as [ |Hne Hall|k engine Hk Hpre Hpos|k engine Hk Hpre Hcan].
  - exists 0. split; [lia|done].
  - exists (length l). split; [done|].
    rewrite firstn_all, !calls_app, calls_attempts.
    destruct (_ =? _); cbn; by rewrite app_nil_r.
  - pose proof (lookup_lt_Some _ _ _ Hk). exists (S k). split; [lia|].
    rewrite (take_S_r l k engine Hk), numbered_from_snoc.
    rewrite calls_app, calls_attempts. cbn [DispatchSpec.calls].
    rewrite !calls_app, calls_caught, length_take, Nat.min_l by lia.
    destruct (k =? 0); by cbn.
  - pose proof (lookup_lt_Some _ _ _ Hk). exists (S k). split; [lia|].
    rewrite (take_S_r l k engine Hk), numbered_from_snoc.
    rewrite calls_app, calls_attempts, length_take, Nat.min_l by lia.
    done.
Qed.

Section Verdicts.
Import TvMovie TvMovie.SearchBox TvMovieSpec DispatchSpec.

Lemma caught_counts (p : Event → bool) (out : Outcome) :
  p LogError = false → count_events p (caught out) = 0.
Proof. intros Hp. destruct out; cbn; [done|]. unfold count_events. cbn. by rewrite Hp. Qed.

(** The ending of a dispatch whose engine [i] is the first to stop the
    loop, by succeeding. *)
Lemma ending_succeeded (search : Oracle) (history : option (list string))
    (self : SearchBox.t) (task : Task) (w : World) (l : list Engine)
    (r : Res bool) (evs : list Event) (m : gmap loc (list Engine))
    (i : nat) (engine : Engine) :
  Ending search history self task w l r evs m →
  l !! i = Some engine →
  (∀ j e, j < i → l !! j = Some e → continues (search j e task)) →
  (0 < code_of (search i engine task))%Z →
  r = Ok true
  ∧ evs = attempts search task (take i l) 0
            ++ Search i engine task :: caught (search i engine task)
            ++ [ReportSuccess service (agent engine)]
            ++ (if i =? 0 then [] else [LogWarning]).
Proof.
  intros Hend Hi Hpre Hpos.
  destruct Hend as [Hnil|Hne Hall|k e Hk Hbefore Hkpos|k e Hk Hbefore Hcan].
  - by rewrite Hnil in Hi.
  - destruct (Hall i engine Hi). lia.
  - destruct (Nat.lt_trichotomy k i) as [Hlt|[->|Hgt]].
    + destruct (Hpre k e Hlt Hk). lia.
    + rewrite Hi in Hk. by injection Hk as <-.
    + destruct (Hbefore i engine Hgt Hi). lia.
  - destruct (Nat.lt_trichotomy k i) as [Hlt|[->|Hgt]].
    + destruct (Hpre k e Hlt Hk) as [_ Hne]. by rewrite Hcan in Hne.
    + rewrite Hi in Hk. injection Hk as <-. rewrite Hcan in Hpos.
      unfold CANCELLED_CODE in Hpos. cbn in Hpos. lia.
    + destruct (Hbefore i engine Hgt Hi). lia.
Qed.

(** The ending of a dispatch in which no engine stops the loop. *)
Lemma ending_exhausted (search : Oracle) (history : option (list string))
    (self : SearchBox.t) (task : Task) (w : World) (l : list Engine)
    (r : Res bool) (evs : list Event) (m : gmap loc (list Engine)) :
  Ending search history self task w l r evs m →
  l ≠ [] →
  (∀ j e, l !! j = Some e → continues (search j e task)) →
  r = Ok (negb (failed_among search task l 0 =? length l))
  ∧ evs = attempts search task l 0
            ++ [_respond_204 history (keywords task) (request task)]
            ++ (if failed_among search task l 0 =? length l
                then [ReportCrash service] else [])
  ∧ m = lists w.
Proof.
  intros Hend Hne Hall.
  destruct Hend as [Hnil| |k e Hk _ Hkpos|k e Hk _ Hcan]; [done|done|..].
  - destruct (Hall k e Hk). lia.
  - destruct (Hall k e Hk) as [_ Hnc]. by rewrite Hcan in Hnc.
Qed.

End Verdicts.

(** X4. When the engine at index [i] is the first to succeed (those
    before it neither succeed nor report cancellation), the dispatch
    tells the monitor of exactly one success, that of this engine's
    agent, and of one failure per engine before it that failed; it
    reports no crash and sends no no-result response. *)
Theorem search_success_reports
    (search : TvMovie.Oracle) (history : option (list string))
    (self : TvMovie.SearchBox.t) (task : TvMovie.Task) (w : TvMovie.World)
    (l : list TvMovie.Engine) (i : nat) (engine : TvMovie.Engine) :
  TvMovie.lists w !! TvMovie.SearchBox.engines self = Some l →
  l !! i = Some engine →
  (∀ j e, j < i → l !! j = Some e → TvMovieSpec.continues (search j e task)) →
  (0 < TvMovie.SearchBox.code_of (search i engine task))%Z →
  let evs := TvMovieSpec.new_events w
               (TvMovie.SearchBox._search search history self task w).2 in
  TvMovie.ReportSuccess TvMovie.SearchBox.service (TvMovie.agent engine) ∈ evs
  ∧ TvMovieSpec.count_events DispatchSpec.is_success_report evs = 1
  ∧ TvMovieSpec.count_events DispatchSpec.is_failure_report evs
      = TvMovieSpec.failed_among search task (take i l) 0
  ∧ TvMovieSpec.count_events TvMovieSpec.is_crash evs = 0
  ∧ TvMovieSpec.count_events TvMovieSpec.is_response evs = 0.
Proof.
  intros Hl Hi Hpre Hpos evs. subst evs.
  destruct (_search_ending search history self task w l Hl)
    as (r & evs & w' & Hs & Hlog & Hend).
  rewrite Hs. cbn [snd]. rewrite (new_events_log evs w w' Hlog).
  destruct (ending_succeeded _ _ _ _ _ _ _ _ _ _ _ Hend Hi Hpre Hpos)
    as [_ ->].
  change (TvMovie.Search i engine task :: ?x)
    with ([TvMovie.Search i engine task] ++ x).
  split_and!.
  - rewrite !elem_of_app. right; right; right; left. apply list_elem_of_here.
  - rewrite !count_events_app, attempts_no_success, caught_counts by done.
    by destruct (i =? 0).
  - rewrite !count_events_app, attempts_failures, caught_counts by done.
    destruct (i =? 0); cbn; lia.
  - rewrite !count_events_app, attempts_no_crash, caught_counts by done.
    by destruct (i =? 0).
  - rewrite !count_events_app, attempts_no_response, caught_counts by done.
    by destruct (i =? 0).
Qed.

(** X5. When no engine succeeds or reports cancellation and at least one
    returns a code that is not negative (that is, 0), the dispatch
    returns true although nothing was found: it sends the no-result
    response, reports no crash and no success, and leaves the store of
    engine lists as it was. *)
Theorem search_zero_code_returns_true
    (search : TvMovie.Oracle) (history : option (list string))
    (self : TvMovie.SearchBox.t) (task : TvMovie.Task) (w : TvMovie.World)
    (l : list TvMovie.Engine) (i : nat) (engine : TvMovie.Engine) :
  TvMovie.lists w !! TvMovie.SearchBox.engines self = Some l →
  (∀ j e, l !! j = Some e → TvMovieSpec.continues (search j e task)) →
  l !! i = Some engine →
  TvMovie.SearchBox.code_of (search i engine task) = 0%Z →
  ∃ w', TvMovie.SearchBox._search search history self task w = (Ok true, w')
    ∧ TvMovie.lists w' = TvMovie.lists w
    ∧ TvMovieSpec.count_events TvMovieSpec.is_response
        (TvMovieSpec.new_events w w') = 1
    ∧ TvMovieSpec.count_events TvMovieSpec.is_crash
        (TvMovieSpec.new_events w w') = 0
    ∧ TvMovieSpec.count_events DispatchSpec.is_success_report
        (TvMovieSpec.new_events w w') = 0.
Proof.
  intros Hl Hall Hi Hzero.
  assert (l ≠ []) as Hne by (intros ->; by rewrite lookup_nil in Hi).
  destruct (_search_ending search history self task w l Hl)
    as (r & evs & w' & Hs & Hlog & Hend).
  destruct (ending_exhausted _ _ _ _ _ _ _ _ _ Hend Hne Hall)
    as (-> & -> & Hm).
  assert (TvMovieSpec.failed_among search task l 0 < length l) as Hlt.
  { apply (failed_among_some_zero search task l 0 i engine Hi).
    cbn. rewrite Hzero. lia. }
  destruct (Nat.eqb_spec (TvMovieSpec.failed_among search task l 0) (length l))
    as [?|_]; [lia|].
  exists w'. rewrite (new_events_log _ w w' Hlog). split_and!; [done..| | |].
  - by rewrite !count_events_app, attempts_no_response.
  - by rewrite !count_events_app, attempts_no_crash.
  - by rewrite !count_events_app, attempts_no_success.
Qed.

(** X6. Whatever the engines do, a dispatch gives the monitor at most
    one verdict, a success or a crash and never both, and sends at most
    one no-result response: none when it reports a success, one when it
    reports a crash. *)
Theorem search_gives_one_verdict
    (search : TvMovie.Oracle) (history : option (list string))
    (self : TvMovie.SearchBox.t) (task : TvMovie.Task) (w : TvMovie.World)
    (l : list TvMovie.Engine) :
  TvMovie.lists w !! TvMovie.SearchBox.engines self = Some l →
  let evs := TvMovieSpec.new_events w
               (TvMovie.SearchBox._search search history self task w).2 in
  let successes := TvMovieSpec.count_events DispatchSpec.is_success_report evs in
  let crashes := TvMovieSpec.count_events TvMovieSpec.is_crash evs in
  let responses := TvMovieSpec.count_events TvMovieSpec.is_response evs in
  successes + crashes ≤ 1
  ∧ responses ≤ 1
  ∧ (successes = 1 → responses = 0)
  ∧ (crashes = 1 → responses = 1).
Proof.
  intros Hl evs. subst evs. cbv zeta.
  destruct (_search_ending search history self task w l Hl)
    as (r & evs & w' & Hs & Hlog & Hend).
  rewrite Hs. cbn [snd]. rewrite (new_events_log evs w w' Hlog).
  destruct Hend as [ |Hne Hall|k engine Hk Hpre Hpos|k engine Hk Hpre Hcan].
  - cbn. lia.
  - rewrite !count_events_app, attempts_no_success, attempts_no_crash,
      attempts_no_response.
    destruct (_ =? _); cbn; lia.
  - change (TvMovie.Search k engine task :: ?x)
      with ([TvMovie.Search k engine task] ++ x).
    rewrite !count_events_app, attempts_no_success, attempts_no_crash,
      attempts_no_response, !caught_counts by done.
    destruct (k =? 0); cbn; lia.
  - rewrite !count_events_app, attempts_no_success, attempts_no_crash,
      attempts_no_response. cbn. lia.
Qed.

(** X7. Whatever the engines do, the failures a dispatch reports number
    at most as many as the engines, and over a non-empty list it reports
    a crash exactly when it has reported a failure for every engine. *)
Theorem search_crash_iff_all_reported_failed
    (search : TvMovie.Oracle) (history : option (list string))
    (self : TvMovie.SearchBox.t) (task : TvMovie.Task) (w : TvMovie.World)
    (l : list TvMovie.Engine) :
  TvMovie.lists w !! TvMovie.SearchBox.engines self = Some l →
  l ≠ [] →
  let evs := TvMovieSpec.new_events w
               (TvMovie.SearchBox._search search history self task w).2 in
  TvMovieSpec.count_events DispatchSpec.is_failure_report evs ≤ length l
  ∧ (TvMovieSpec.count_events TvMovieSpec.is_crash evs = 1
     ↔ TvMovieSpec.count_events DispatchSpec.is_failure_report evs = length l).
Proof.
  intros Hl Hne evs. subst evs.
  destruct (_search_ending search history self task w l Hl)
    as (r & evs & w' & Hs & Hlog & Hend).
  rewrite Hs. cbn [snd]. rewrite (new_events_log evs w w' Hlog).
  destruct Hend as [ |_ Hall|k engine Hk Hpre Hpos|k engine Hk Hpre Hcan].
  - done.
  - pose proof (failed_among_le search task l 0).
    rewrite !count_events_app, attempts_failures, attempts_no_crash.
    destruct (Nat.eqb_spec (TvMovieSpec.failed_among search task l 0) (length l));
      cbn; lia.
  - pose proof (lookup_lt_Some _ _ _ Hk).
    pose proof (failed_among_le search task (take k l) 0) as Hle.
    rewrite length_take in Hle.
    change (TvMovie.Search k engine task :: ?x)
      with ([TvMovie.Search k engine task] ++ x).
    rewrite !count_events_app, attempts_failures, attempts_no_crash,
      !caught_counts by done.
    destruct (k =? 0); cbn; lia.
  - pose proof (lookup_lt_Some _ _ _ Hk).
    pose proof (failed_among_le search task (take k l) 0) as Hle.
    rewrite length_take in Hle.
    rewrite !count_events_app, attempts_failures, attempts_no_crash.
    cbn. lia.
Qed.

(** * The client's master list and the boxes' snapshots *)

Section Snapshots.
Import TvMovie TvMovieSpec DispatchSpec.

Lemma run_cons (op : Op) (ops : list Op) (s : System) :
  run (op :: ops) s = run ops (step op s).
Proof. done. Qed.

Lemma step_client (op : Op) (s : System) : client (step op s) = client s.
Proof.
  destruct op as [engine|identifier|k search history task]; cbn; [done| |].
  - by destruct SearchClient._new_box as [[box|error] w].
  - by destruct (made s !! k).
Qed.

(** The boxes made so far stay where they are in [made]. *)
Lemma step_made (op : Op) (s : System) (k : nat) (box : SearchBox.t) :
  made s !! k = Some box → made (step op s) !! k = Some box.
Proof.
  intros Hk. destruct op as [engine|identifier|k' search history task]; cbn;
    [done| |].
  - destruct SearchClient._new_box as [[b|error] w]; cbn; [|done].
    by apply lookup_app_l_Some.
  - by destruct (made s !! k').
Qed.

Lemma run_made (ops : list Op) (s : System) (k : nat) (box : SearchBox.t) :
  made s !! k = Some box → made (run ops s) !! k = Some box.
Proof.
  revert s. induction ops as [|op ops IH]; intros s Hk; [done|].
  rewrite run_cons. by apply IH, step_made.
Qed.

(** What one operation does to the master list. *)
Lemma step_master (op : Op) (s : System) (master : list Engine) :
  separate s →
  lists (world s) !! SearchClient.engines (client s) = Some master →
  lists (world (step op s)) !! SearchClient.engines (client s)
    = Some (master ++ added [op]).
Proof.
  intros [Hnd Hdom] Hmaster. unfold held in *.
  apply NoDup_cons in Hnd as [Hc Hm].
  destruct op as [engine|identifier|k search history task]; cbn.
  - unfold SearchClient.add_engine. rewrite Hmaster. cbn.
    by rewrite lookup_insert_eq.
  - unfold SearchClient._new_box. rewrite Hmaster. cbn.
    rewrite lookup_insert_ne, app_nil_r; [done|].
    intros Heq. apply (is_fresh (dom (lists (world s)))).
    rewrite Heq. apply Hdom. left.
  - rewrite app_nil_r. destruct (made s !! k) as [box|] eqn:Hk; [|done]. cbn.
    rewrite _search_frame; [done|]. intros Heq. apply Hc. rewrite Heq.
    apply list_elem_of_fmap. exists box. split; [done|].
    by apply list_elem_of_lookup_2 in Hk.
Qed.

Lemma added_app (a b : list Op) : added (a ++ b) = added a ++ added b.
Proof.
  induction a as [|[engine|identifier|k search history task] a IH]; cbn;
    by rewrite ?IH.
Qed.

Lemma run_master (ops : list Op) (s : System) (master : list Engine) :
  separate s →
  lists (world s) !! SearchClient.engines (client s) = Some master →
  lists (world (run ops s)) !! SearchClient.engines (client (run ops s))
    = Some (master ++ added ops).
Proof.
  revert s master. induction ops as [|op ops IH]; intros s master Hs Hmaster.
  - cbn. by rewrite app_nil_r.
  - rewrite run_cons.
    rewrite (IH (step op s) (master ++ added [op])).
    + change (op :: ops) with ([op] ++ ops). by rewrite added_app, app_assoc.
    + by apply step_separate.
    + rewrite step_client. by apply step_master.
Qed.

(** What an operation other than a dispatch of box [k] does to the list
    of box [k]. *)
Lemma step_snapshot (op : Op) (s : System) (k : nat) (box : SearchBox.t)
    (l : list Engine) :
  separate s →
  made s !! k = Some box →
  dispatches k op = false →
  lists (world s) !! SearchBox.engines box = Some l →
  lists (world (step op s)) !! SearchBox.engines box = Some l.
Proof.
  intros [Hnd Hdom] Hk Hop Hl. unfold held in *.
  apply NoDup_cons in Hnd as [Hc Hm].
  assert (SearchBox.engines box ∈ SearchBox.engines <$> made s) as Hin.
  { apply list_elem_of_fmap. exists box. split; [done|].
    by apply list_elem_of_lookup_2 in Hk. }
  destruct op as [engine|identifier|k' search history task]; cbn.
  - unfold SearchClient.add_engine.
    destruct (lists (world s) !! SearchClient.engines (client s))
      as [master|]; [|done]. cbn.
    rewrite lookup_insert_ne; [done|]. intros Heq. apply Hc. by rewrite Heq.
  - unfold SearchClient._new_box.
    destruct (lists (world s) !! SearchClient.engines (client s))
      as [master|]; [|done]. cbn.
    rewrite lookup_insert_ne; [done|].
    intros Heq. apply (is_fresh (dom (lists (world s)))).
    rewrite Heq. apply Hdom. by right.
  - cbn in Hop. apply Nat.eqb_neq in Hop.
    destruct (made s !! k') as [box'|] eqn:Hk'; [|done]. cbn.
    rewrite _search_frame; [done|]. intros Heq.
    apply Hop. apply (NoDup_lookup _ k' k (SearchBox.engines box) Hm).
    + by rewrite list_lookup_fmap, Hk', Heq.
    + by rewrite list_lookup_fmap, Hk.
Qed.

Lemma run_snapshot (ops : list Op) (s : System) (k : nat) (box : SearchBox.t)
    (l : list Engine) :
  separate s →
  made s !! k = Some box →
  forallb (fun op => negb (dispatches k op)) ops = true →
  lists (world s) !! SearchBox.engines box = Some l →
  lists (world (run ops s)) !! SearchBox.engines box = Some l.
Proof.
  revert s. induction ops as [|op ops IH]; intros s Hs Hk Hops Hl; [done|].
  cbn in Hops. apply andb_true_iff in Hops as [Hop Hops].
  apply negb_true_iff in Hop.
  rewrite run_cons.
  apply IH; [by apply step_separate|by apply step_made|done|].
  by apply (step_snapshot op s k).
Qed.

End Snapshots.

(** X8. The history is append-only: after any number of [add_command]
    calls it is the history before followed by the new entries in call
    order; no entry is dropped, changed or moved. *)
Theorem history_is_append_only
    (cmds : list TvMovie.HistoryManager.Command)
    (self : TvMovie.HistoryManager.t) :
  TvMovie.HistoryManager.commands (TvMovieSpec.add_commands cmds self)
    = TvMovie.HistoryManager.commands self ++ cmds
  ∧ length (TvMovie.HistoryManager.commands (TvMovieSpec.add_commands cmds self))
    = length (TvMovie.HistoryManager.commands self) + length cmds.
Proof.
  rewrite add_commands_keeps_all. split; [done|]. apply length_app.
Qed.

(** X9. Whatever the client and its boxes do, the master list holds the
    engines in the order [add_engine] registered them (duplicates kept):
    neither [_new_box] nor any dispatch changes it. *)
Theorem master_list_in_registration_order (ops : list TvMovie.Op) :
  let s := TvMovie.run ops TvMovie.boot in
  TvMovie.lists (TvMovie.world s) !! TvMovie.SearchClient.engines (TvMovie.client s)
    = Some (DispatchSpec.added ops).
Proof.
  intros s. subst s.
  rewrite (run_master ops TvMovie.boot [] boot_separate); [done|].
  cbn. apply lookup_insert_eq.
Qed.

(** X10. The list of a box is a snapshot: as long as the box itself does
    not dispatch, its list stays what it is, whatever else happens, so
    an engine registered with the client after the box was made never
    reaches the box. *)
Theorem box_list_is_a_snapshot
    (before after : list TvMovie.Op) (k : nat) (box : TvMovie.SearchBox.t)
    (l : list TvMovie.Engine) :
  let s := TvMovie.run before TvMovie.boot in
  TvMovie.made s !! k = Some box →
  TvMovie.lists (TvMovie.world s) !! TvMovie.SearchBox.engines box = Some l →
  forallb (fun op => negb (DispatchSpec.dispatches k op)) after = true →
  let s' := TvMovie.run after s in
  TvMovie.made s' !! k = Some box
  ∧ TvMovie.lists (TvMovie.world s') !! TvMovie.SearchBox.engines box = Some l.
Proof.
  intros s Hk Hl Hafter s'. subst s'.
  pose proof (run_separate before TvMovie.boot boot_separate) as Hs.
  fold s in Hs. split.
  - by apply run_made.
  - by apply (run_snapshot after s k).
Qed.

(** * More on the chat-box pool *)

Section PoolInvariants.
Import FakeOpen FakeOpenSpec PoolSpec.

Lemma init_exclusive : exclusive ChatBoxPool.init.
Proof.
  split_and!.
  - intros box [object Hbox]. cbn in Hbox. by rewrite lookup_empty in Hbox.
  - intros identifier box Hbox. cbn in Hbox. by rewrite lookup_empty in Hbox.
  - intros id1 id2 box Hbox. cbn in Hbox. by rewrite lookup_empty in Hbox.
Qed.

Lemma get_box_exclusive (now : Q) (identifier : ID) (p : ChatBoxPool.t) :
  exclusive p → exclusive (ChatBoxPool.get_box now identifier p).2.
Proof.
  intros (Hnum & Hmap & Hex).
  destruct (ChatBoxPool.weak_get identifier p) as [b|] eqn:Hw.
  { by rewrite (get_box_found _ _ _ _ Hw). }
  rewrite (get_box_new _ _ _ Hw). cbn. split_and!; cbn.
  - intros b. destruct (decide (ChatBoxPool.created p = b)) as [<-|Hne].
    { intros _. cbn. lia. }
    cbn. rewrite lookup_insert_ne by done. intros Hb%Hnum. lia.
  - intros id b. destruct (decide (identifier = id)) as [<-|Hne].
    + rewrite lookup_insert_eq. intros [= <-]. lia.
    + rewrite lookup_insert_ne by done. intros Hb%Hmap. lia.
  - intros id1 id2 b.
    destruct (decide (identifier = id1)) as [<-|Hne1];
      destruct (decide (identifier = id2)) as [<-|Hne2]; [done|..].
    + rewrite lookup_insert_eq, lookup_insert_ne by done.
      intros [= <-] Hb%Hmap. lia.
    + rewrite lookup_insert_eq, lookup_insert_ne by done.
      intros Hb%Hmap [= <-]. lia.
    + rewrite !lookup_insert_ne by done. intros H1 H2.
      pose proof (Hmap _ _ H1).
      rewrite lookup_insert_ne by lia. by apply Hex.
Qed.

Lemma pool_step_exclusive (op : PoolOp) (p : ChatBoxPool.t) :
  exclusive p → exclusive (pool_step op p).
Proof.
  destruct op as [now identifier|now gpt question b|now]; cbn.
  - apply get_box_exclusive.
  - intros (Hnum & Hmap & Hex).
    destruct (ChatBoxPool.boxes p !! b) as [object|] eqn:Hb; [|done].
    assert (∀ k, is_Some (<[b := (ChatBox.ask now gpt question object).2]>
                            (ChatBoxPool.boxes p) !! k)
                 → is_Some (ChatBoxPool.boxes p !! k)) as Hsame.
    { intros k. destruct (decide (b = k)) as [<-|Hne].
      - by rewrite Hb.
      - by rewrite lookup_insert_ne. }
    split_and!; [unfold numbered; cbn; intros ? ?%Hsame; auto|done|].
    cbn. intros id1 id2 box H1 H2 ?%Hsame. eauto.
  - intros (Hnum & Hmap & Hex).
    unfold ChatBoxPool.purge. destruct (Qlt_bool now _); [done|]. cbn.
    assert (∀ k, is_Some (ChatBoxPool.discard_expired now (ChatBoxPool.boxes p) !! k)
                 → is_Some (ChatBoxPool.boxes p !! k)) as Hsub.
    { intros k. rewrite discard_expired_lookup.
      destruct (ChatBoxPool.boxes p !! k); [done|]. by intros [? ?]. }
    split_and!; [unfold numbered; cbn; intros ? ?%Hsub; auto|done|].
    cbn. intros id1 id2 box H1 H2 ?%Hsub. eauto.
Qed.

Lemma pool_run_exclusive (ops : list PoolOp) (p : ChatBoxPool.t) :
  exclusive p → exclusive (pool_run ops p).
Proof.
  revert p. induction ops as [|op ops IH]; intros p Hp; [done|].
  cbn. by apply IH, pool_step_exclusive.
Qed.

Lemma ask_state (now : Q) (gpt : Backend) (question : string)
    (self : ChatBox.t) :
  (ChatBox.ask now gpt question self).2 = ChatBox.mk (now + 36000).
Proof. done. Qed.

(** The deadline of the scan never moves back. *)
Lemma pool_step_deadline (op : PoolOp) (p : ChatBoxPool.t) :
  (ChatBoxPool.next_purge_time p
     <= ChatBoxPool.next_purge_time (pool_step op p))%Q.
Proof.
  destruct op as [now identifier|now gpt question b|now]; cbn.
  - unfold ChatBoxPool.get_box.
    destruct ChatBoxPool.weak_get; cbn; apply Qle_refl.
  - destruct (ChatBoxPool.boxes p !! b); cbn; apply Qle_refl.
  - unfold ChatBoxPool.purge.
    destruct (Qlt_bool now _) eqn:Hb; cbn; [apply Qle_refl|].
    assert (¬ (now < ChatBoxPool.next_purge_time p)%Q) as Hge.
    { intros Hlt%Qlt_bool_iff. congruence. }
    lra.
Qed.

Lemma pool_run_deadline (ops : list PoolOp) (p : ChatBoxPool.t) :
  (ChatBoxPool.next_purge_time p
     <= ChatBoxPool.next_purge_time (pool_run ops p))%Q.
Proof.
  revert p. induction ops as [|op ops IH]; intros p; [apply Qle_refl|].
  cbn. eapply Qle_trans; [apply pool_step_deadline|apply IH].
Qed.

End PoolInvariants.

(** X11. In every state of the pool, two different users never resolve
    to the same box. *)
Theorem pool_boxes_not_shared
    (ops : list FakeOpenSpec.PoolOp) (id1 id2 : ID) (box1 box2 : loc) :
  let p := FakeOpenSpec.pool_run ops FakeOpen.ChatBoxPool.init in
  id1 ≠ id2 →
  FakeOpen.ChatBoxPool.weak_get id1 p = Some box1 →
  FakeOpen.ChatBoxPool.weak_get id2 p = Some box2 →
  box1 ≠ box2.
Proof.
  intros p Hne [H1 Hheld]%weak_get_Some [H2 _]%weak_get_Some <-.
  destruct (pool_run_exclusive ops _ init_exclusive) as (_ & _ & Hex).
  by apply Hne, (Hex id1 id2 box1).
Qed.

(** X12. A box that was asked a question at time [now] survives every
    [purge] called up to 36000 seconds later, with its deadline, and a
    user who resolved to it still does. *)
Theorem asked_box_survives_purge
    (p : FakeOpen.ChatBoxPool.t) (box : loc) (now t : Q)
    (gpt : FakeOpen.Backend) (question : string) (identifier : ID) :
  is_Some (FakeOpen.ChatBoxPool.boxes p !! box) →
  FakeOpen.ChatBoxPool.weak_get identifier p = Some box →
  (t <= now + 36000)%Q →
  let asked := FakeOpenSpec.pool_step (FakeOpenSpec.Touch now gpt question box) p in
  let p' := (FakeOpen.ChatBoxPool.purge t asked).2 in
  FakeOpen.ChatBoxPool.boxes p' !! box
    = Some (FakeOpen.ChatBox.mk (now + 36000))
  ∧ FakeOpen.ChatBoxPool.weak_get identifier p' = Some box.
Proof.
  intros [object Hbox] [Hmap _]%weak_get_Some Hle asked p'.
  subst asked p'. unfold FakeOpenSpec.pool_step. rewrite Hbox, !ask_state.
  assert (FakeOpen.ChatBoxPool.boxes
            (FakeOpen.ChatBoxPool.purge t
               (FakeOpen.ChatBoxPool.mk (FakeOpen.ChatBoxPool.map p)
                  (<[box := FakeOpen.ChatBox.mk (now + 36000)]>
                     (FakeOpen.ChatBoxPool.boxes p))
                  (FakeOpen.ChatBoxPool.next_purge_time p)
                  (FakeOpen.ChatBoxPool.created p))).2 !! box
          = Some (FakeOpen.ChatBox.mk (now + 36000))) as Hkept.
  { unfold FakeOpen.ChatBoxPool.purge. cbn.
    destruct (Qlt_bool t _); cbn; [by rewrite lookup_insert_eq|].
    rewrite discard_expired_lookup, lookup_insert_eq.
    destruct (FakeOpen.ChatBox.is_expired t _) eqn:He; [|done].
    apply is_expired_iff in He. cbn [FakeOpen.ChatBox.expired] in He. lra. }
  split; [done|]. apply weak_get_Some. split.
  - unfold FakeOpen.ChatBoxPool.purge. cbn. by destruct (Qlt_bool t _).
  - by rewrite Hkept.
Qed.

(** X13. Whatever happens to the pool in between, two calls of [purge]
    that both run their scan have clock readings at least 60 seconds
    apart. *)
Theorem scans_are_60_seconds_apart
    (p p1 p3 : FakeOpen.ChatBoxPool.t) (t1 t2 : Q)
    (ops : list FakeOpenSpec.PoolOp) :
  FakeOpen.ChatBoxPool.purge t1 p = (true, p1) →
  FakeOpen.ChatBoxPool.purge t2 (FakeOpenSpec.pool_run ops p1) = (true, p3) →
  (t1 + 60 <= t2)%Q.
Proof.
  unfold FakeOpen.ChatBoxPool.purge at 1.
  destruct (Qlt_bool t1 _); [done|]. intros [= <-].
  pose proof (pool_run_deadline ops
    (FakeOpen.ChatBoxPool.mk (FakeOpen.ChatBoxPool.map p)
       (FakeOpen.ChatBoxPool.discard_expired t1 (FakeOpen.ChatBoxPool.boxes p))
       (t1 + 60) (FakeOpen.ChatBoxPool.created p))) as Hmono.
  cbn in Hmono. unfold FakeOpen.ChatBoxPool.purge.
  destruct (Qlt_bool t2 _) eqn:Hb; [done|]. intros _.
  assert (¬ (t2 < FakeOpen.ChatBoxPool.next_purge_time
                    (FakeOpenSpec.pool_run ops
                       (FakeOpen.ChatBoxPool.mk (FakeOpen.ChatBoxPool.map p)
                          (FakeOpen.ChatBoxPool.discard_expired t1
                             (FakeOpen.ChatBoxPool.boxes p))
                          (t1 + 60) (FakeOpen.ChatBoxPool.created p))))%Q) as Hge.
  { intros Hlt%Qlt_bool_iff. congruence. }
  lra.
Qed.

Section Serving.
Import FakeOpen FakeOpenSpec PoolSpec.

(** After [get_box], the user resolves to the box it returned. *)
Lemma get_box_entry (now : Q) (identifier : ID) (p p1 : ChatBoxPool.t)
    (box : loc) :
  ChatBoxPool.get_box now identifier p = (Some box, p1) →
  ChatBoxPool.weak_get identifier p1 = Some box.
Proof.
  destruct (ChatBoxPool.weak_get identifier p) as [b|] eqn:Hw.
  - rewrite (get_box_found _ _ _ _ Hw). by intros [= <- <-].
  - rewrite (get_box_new _ _ _ Hw). intros [= <- <-].
    apply weak_get_Some. cbn. by rewrite !lookup_insert_eq.
Qed.

(** [get_box] removes no box and changes none. *)
Lemma get_box_keeps (now : Q) (identifier : ID) (p : ChatBoxPool.t)
    (b : loc) (object : ChatBox.t) :
  numbered p →
  ChatBoxPool.boxes p !! b = Some object →
  ChatBoxPool.boxes (ChatBoxPool.get_box now identifier p).2 !! b = Some object.
Proof.
  intros Hnum Hb.
  destruct (ChatBoxPool.weak_get identifier p) as [b'|] eqn:Hw.
  - by rewrite (get_box_found _ _ _ _ Hw).
  - rewrite (get_box_new _ _ _ Hw). cbn.
    assert (b < ChatBoxPool.created p) by (apply Hnum; by exists object).
    rewrite lookup_insert_ne by lia. done.
Qed.

(** The pool a [process] call with a task leaves behind. *)
Lemma process_pool (clock : Clock) (gpt : Backend) (self : ChatClient.t)
    (task : ChatTask) (rest : list ChatTask) :
  ChatClient.task_pool self = task :: rest →
  ∃ box pool,
    ChatBoxPool.get_box (at_init clock) (identifier (request task))
      (ChatClient.box_pool self) = (Some box, pool)
    ∧ ChatClient.task_pool (ChatClient.process clock gpt self).2 = rest
    ∧ ChatClient.box_pool (ChatClient.process clock gpt self).2
        = ChatBoxPool.mk (ChatBoxPool.map pool)
            (<[box := ChatBox.mk (at_prepare clock + 36000)]>
               (ChatBoxPool.boxes pool))
            (ChatBoxPool.next_purge_time pool) (ChatBoxPool.created pool).
Proof.
  intros Htask. unfold ChatClient.process. rewrite Htask. cbn.
  destruct (get_box_yields (at_init clock) (identifier (request task))
              (ChatClient.box_pool self)) as (box & pool & object & -> & ->).
  exists box, pool. split; [done|]. unfold ChatBox.ask. cbn.
  by destruct (gpt _) as [[answer|]|error].
Qed.

End Serving.

(** X14. Two requests of the same user processed one after the other are
    put to the same box: the second [process] finds the box the first one
    used and constructs none, whatever the backend did with the first
    question. *)
Theorem same_user_requests_share_box
    (clock1 clock2 : FakeOpen.Clock) (gpt1 : FakeOpen.Backend)
    (c : FakeOpen.ChatClient.t) (t1 t2 : FakeOpen.ChatTask)
    (rest : list FakeOpen.ChatTask) :
  FakeOpen.ChatClient.task_pool c = t1 :: t2 :: rest →
  FakeOpen.identifier (FakeOpen.request t2)
    = FakeOpen.identifier (FakeOpen.request t1) →
  let c1 := (FakeOpen.ChatClient.process clock1 gpt1 c).2 in
  ∃ box,
    (FakeOpen.ChatBoxPool.get_box (FakeOpen.at_init clock1)
       (FakeOpen.identifier (FakeOpen.request t1))
       (FakeOpen.ChatClient.box_pool c)).1 = Some box
    ∧ FakeOpen.ChatClient.task_pool c1 = t2 :: rest
    ∧ FakeOpen.ChatBoxPool.get_box (FakeOpen.at_init clock2)
        (FakeOpen.identifier (FakeOpen.request t2))
        (FakeOpen.ChatClient.box_pool c1)
      = (Some box, FakeOpen.ChatClient.box_pool c1).
Proof.
  intros Htask Hsame c1. subst c1.
  destruct (process_pool clock1 gpt1 c t1 (t2 :: rest) Htask)
    as (box & pool & Hget & Hrest & Hpool).
  exists box. rewrite Hget, Hrest, Hpool, Hsame. split_and!; [done..|].
  apply get_box_found, weak_get_Some. cbn.
  apply get_box_entry, weak_get_Some in Hget as [Hmap _].
  split; [done|]. by rewrite lookup_insert_eq.
Qed.

(** X15. In every state of the pool, [get_box] for one user leaves every
    other user resolving to what they resolved to, leaves every box the
    pool holds as it is, and does not touch the deadline of the scan. *)
Theorem get_box_leaves_other_users
    (ops : list FakeOpenSpec.PoolOp) (now : Q) (identifier : ID) :
  let p := FakeOpenSpec.pool_run ops FakeOpen.ChatBoxPool.init in
  let p' := (FakeOpen.ChatBoxPool.get_box now identifier p).2 in
  (∀ other, other ≠ identifier →
     FakeOpen.ChatBoxPool.weak_get other p' = FakeOpen.ChatBoxPool.weak_get other p)
  ∧ (∀ box object,
       FakeOpen.ChatBoxPool.boxes p !! box = Some object →
       FakeOpen.ChatBoxPool.boxes p' !! box = Some object)
  ∧ FakeOpen.ChatBoxPool.next_purge_time p'
      = FakeOpen.ChatBoxPool.next_purge_time p.
Proof.
  intros p p'. subst p'.
  destruct (pool_run_exclusive ops _ init_exclusive) as (Hnum & Hmap & _).
  fold p in Hnum, Hmap. split_and!.
  - intros other Hother.
    destruct (FakeOpen.ChatBoxPool.weak_get identifier p) as [b|] eqn:Hw.
    { by rewrite (get_box_found _ _ _ _ Hw). }
    rewrite (get_box_new _ _ _ Hw). unfold FakeOpen.ChatBoxPool.weak_get. cbn.
    rewrite lookup_insert_ne by done.
    destruct (FakeOpen.ChatBoxPool.map p !! other) as [b|] eqn:Hb; [|done].
    apply Hmap in Hb. by rewrite lookup_insert_ne by lia.
  - intros box object. by apply get_box_keeps.
  - destruct (FakeOpen.ChatBoxPool.weak_get identifier p) as [b|] eqn:Hw.
    + by rewrite (get_box_found _ _ _ _ Hw).
    + by rewrite (get_box_new _ _ _ Hw).
Qed.

(** X16. Boxes are evicted only by an idle worker: a [process] call that
    finds a task in the queue removes no box from the pool, however long
    past its deadline, and leaves the deadline of the scan alone. *)
Theorem busy_worker_never_evicts
    (clock : FakeOpen.Clock) (gpt : FakeOpen.Backend)
    (c : FakeOpen.ChatClient.t) (task : FakeOpen.ChatTask)
    (rest : list FakeOpen.ChatTask) (box : loc) :
  FakeOpen.ChatClient.task_pool c = task :: rest →
  is_Some (FakeOpen.ChatBoxPool.boxes (FakeOpen.ChatClient.box_pool c) !! box) →
  let c' := (FakeOpen.ChatClient.process clock gpt c).2 in
  is_Some (FakeOpen.ChatBoxPool.boxes (FakeOpen.ChatClient.box_pool c') !! box)
  ∧ FakeOpen.ChatBoxPool.next_purge_time (FakeOpen.ChatClient.box_pool c')
      = FakeOpen.ChatBoxPool.next_purge_time (FakeOpen.ChatClient.box_pool c).
Proof.
  intros Htask Hbox c'. subst c'.
  destruct (process_pool clock gpt c task rest Htask)
    as (b & pool & Hget & _ & ->). cbn.
  assert (is_Some (FakeOpen.ChatBoxPool.boxes pool !! box)
          ∧ FakeOpen.ChatBoxPool.next_purge_time pool
              = FakeOpen.ChatBoxPool.next_purge_time (FakeOpen.ChatClient.box_pool c))
    as [Hkept Hnext].
  { destruct (FakeOpen.ChatBoxPool.weak_get
                (FakeOpen.identifier (FakeOpen.request task))
                (FakeOpen.ChatClient.box_pool c)) as [b'|] eqn:Hw.
    - rewrite (get_box_found _ _ _ _ Hw) in Hget. by injection Hget as <- <-.
    - rewrite (get_box_new _ _ _ Hw) in Hget. injection Hget as <- <-. cbn.
      split; [|done]. apply lookup_insert_is_Some'. by right. }
  split; [|done]. apply lookup_insert_is_Some'. by right.
Qed.

(** * The prompt handler *)

Section Prompts.
Import TvMovie Prompt.

Lemma added_tell (evs : list Event) (st st' : State) :
  effects st' = effects st ++ evs → added st st' = evs.
Proof. unfold added. intros ->. apply drop_app_length. Qed.

Lemma count_app (p : Event → bool) (a b : list Event) :
  count p (a ++ b) = count p a + count p b.
Proof. unfold count. by rewrite List.filter_app, length_app. Qed.

(** [_cancel_task]: what it logs and leaves. *)
Lemma _cancel_task_effects (st : State) :
  task (_cancel_task st) = None
  ∧ history (_cancel_task st) = history st
  ∧ effects (_cancel_task st)
      = effects st ++ match task st with
                       | Some running => [Warning; Cancel running]
                       | None => []
                       end.
Proof.
  unfold _cancel_task. destruct (task st) eqn:Ht; cbn; [done|].
  by rewrite app_nil_r.
Qed.

Lemma _cancel_task_idle (st : State) :
  task st = None → _cancel_task st = st.
Proof. unfold _cancel_task. by intros ->. Qed.

Lemma history_rows_app (env : Env) (text : string)
    (a b : list HistoryManager.Command) :
  history_rows env text (a ++ b) = history_rows env (history_rows env text a) b.
Proof. revert text. induction a as [|his a IH]; intros text; cbn; [done|]. apply IH. Qed.

(** What the handler does with a prompt that is not empty once stripped,
    by the kind of prompt. *)
Lemma _ask_question_cases (env : Env) (live_urls : list string)
    (tag : option string) (prompt : string) (request : ChatRequest)
    (st : State) :
  let keywords := strip env prompt in
  let kw_len := len env keywords in
  let entry :=
    HistoryManager.mkCommand (sender request) (group request) (time request)
      keywords in
  let cancelled :=
    match task st with
    | Some running => [Warning; Cancel running]
    | None => []
    end in
  let st' := _ask_question env live_urls tag prompt request st in
  kw_len ≠ 0 →
  history st' = history st ++ [entry]
  ∧ ∃ tail,
      effects st' = effects st ++ [Info] ++ cancelled ++ tail
      ∧ (if is_command env keywords kw_len 6 "cancel"
            || is_command env keywords kw_len 4 "stop"
         then task st' = None ∧ tail = []
         else if is_command env keywords kw_len 12 "show history"
         then task st' = None
              ∧ tail = [Respond
                          (_respond_history_text env (history st ++ [entry]))
                          request]
         else task st' = Some (mkTask keywords request)
              ∧ (if is_command env keywords kw_len 11 "tv channels"
                 then tail = [ClearCaches;
                              Start (TvSearch (mkTask keywords request))]
                 else if is_command env keywords kw_len 19 "live stream sources"
                 then tail = ClearCaches :: GetLiveUrls
                               :: _respond_live_urls live_urls tag request
                 else tail = [Start (BoxSearch (mkTask keywords request))])).
Proof.
  intros keywords kw_len entry cancelled st' Hlen.
  subst st'. unfold _ask_question. fold keywords. fold kw_len.
  destruct (Nat.eqb_spec kw_len 0) as [?|_]; [done|].
  destruct (_cancel_task_effects (tell [Info] st)) as (Ht & Hh & He).
  cbn [tell task history effects] in Ht, Hh, He. fold cancelled in He.
  unfold _new_task.
  rewrite (_cancel_task_idle (mkState _ _ _)) by exact Ht.
  destruct (is_command env keywords kw_len 6 "cancel"); cbn [orb].
  { split; [cbn [history]; by rewrite Hh|]. exists []. cbn [task effects].
    by rewrite Ht, He, <- !app_assoc, app_nil_r. }
  destruct (is_command env keywords kw_len 4 "stop"); cbn [orb].
  { split; [cbn [history]; by rewrite Hh|]. exists []. cbn [task effects].
    by rewrite Ht, He, <- !app_assoc, app_nil_r. }
  destruct (is_command env keywords kw_len 12 "show history").
  { split; [cbn [tell history]; by rewrite Hh|]. eexists.
    cbn [tell task history effects _respond_history HistoryManager.commands].
    rewrite Ht, He, Hh, <- !app_assoc. by split. }
  destruct (is_command env keywords kw_len 11 "tv channels").
  { split; [cbn [tell history]; by rewrite Hh|]. eexists.
    cbn [tell task history effects]. rewrite He, <- !app_assoc. by split. }
  destruct (is_command env keywords kw_len 19 "live stream sources").
  { split; [cbn [tell history]; by rewrite Hh|]. eexists.
    cbn [tell task history effects]. rewrite He, <- !app_assoc. by split. }
  split; [cbn [tell history]; by rewrite Hh|]. eexists.
  cbn [tell task history effects]. rewrite He, <- !app_assoc. by split.
Qed.

End Prompts.

Section PromptFacts.
Import TvMovie Prompt.

Lemma is_command_len (env : Env) (keywords : string) (kw_len n : nat)
    (name : string) :
  is_command env keywords kw_len n name = true → kw_len = n.
Proof.
  unfold is_command. intros [Hn _]%andb_true_iff. by apply Nat.eqb_eq.
Qed.

Lemma is_command_other (env : Env) (keywords : string) (kw_len n m : nat)
    (name other : string) :
  is_command env keywords kw_len n name = true → n ≠ m →
  is_command env keywords kw_len m other = false.
Proof.
  intros ->%is_command_len Hne. unfold is_command.
  by destruct (Nat.eqb_spec n m).
Qed.

Lemma count_cancelled_starts (running : option Task) :
  count is_start match running with
                 | Some running => [Warning; Cancel running]
                 | None => []
                 end = 0.
Proof. by destruct running. Qed.

Lemma count_cancelled_cancels (running : option Task) :
  count is_cancel match running with
                  | Some running => [Warning; Cancel running]
                  | None => []
                  end = match running with Some _ => 1 | None => 0 end.
Proof. by destruct running. Qed.

End PromptFacts.

(** X17. Every prompt that is not empty once stripped is recorded in the
    history exactly once, with its sender, group and time, before it is
    interpreted: also "cancel", "stop" and "show history" themselves. A
    prompt that strips to nothing is not recorded. *)
Theorem prompt_recorded_once
    (env : Prompt.Env) (live_urls : list string) (tag : option string)
    (prompt : string) (request : TvMovie.ChatRequest) (st : Prompt.State) :
  let keywords := Prompt.strip env prompt in
  Prompt.history (Prompt._ask_question env live_urls tag prompt request st)
    = Prompt.history st
        ++ (if Prompt.len env keywords =? 0 then []
            else [TvMovie.HistoryManager.mkCommand (TvMovie.sender request)
                    (TvMovie.group request) (TvMovie.time request) keywords]).
Proof.
  intros keywords.
  destruct (Nat.eqb_spec (Prompt.len env keywords) 0) as [Hz|Hnz].
  - unfold Prompt._ask_question. fold keywords. rewrite Hz. cbn.
    by rewrite app_nil_r.
  - by destruct (_ask_question_cases env live_urls tag prompt request st Hnz)
      as [-> _].
Qed.

(** X18. A prompt that is not empty once stripped cancels the task the
    box was running, once (the second [_cancel_task], inside [_new_task],
    finds nothing to cancel), and leaves the box with no task or with the
    task of this prompt. A prompt that strips to nothing leaves the
    running task alone and only writes a log line. *)
Theorem prompt_cancels_running_task_once
    (env : Prompt.Env) (live_urls : list string) (tag : option string)
    (prompt : string) (request : TvMovie.ChatRequest) (st : Prompt.State) :
  let keywords := Prompt.strip env prompt in
  let st' := Prompt._ask_question env live_urls tag prompt request st in
  (Prompt.len env keywords = 0 →
     Prompt.task st' = Prompt.task st
     ∧ Prompt.added st st' = [Prompt.Info])
  ∧ (Prompt.len env keywords ≠ 0 →
     Prompt.count Prompt.is_cancel (Prompt.added st st')
       = match Prompt.task st with Some _ => 1 | None => 0 end
     ∧ (∀ running, Prompt.task st = Some running →
          Prompt.Cancel running ∈ Prompt.added st st')
     ∧ (Prompt.task st' = None
        ∨ Prompt.task st' = Some (TvMovie.mkTask keywords request))).
Proof.
  intros keywords st'. subst st'. split.
  - intros Hz. unfold Prompt._ask_question. fold keywords. rewrite Hz. cbn.
    split; [done|]. by apply added_tell.
  - intros Hnz.
    destruct (_ask_question_cases env live_urls tag prompt request st Hnz)
      as (_ & tail & Heff & Hkind).
    fold keywords in Hkind.
    rewrite (added_tell _ _ _ Heff).
    assert (Prompt.count Prompt.is_cancel tail = 0
            ∧ (Prompt.task
                 (Prompt._ask_question env live_urls tag prompt request st) = None
               ∨ Prompt.task
                   (Prompt._ask_question env live_urls tag prompt request st)
                 = Some (TvMovie.mkTask keywords request))) as [Htail Htask].
    { cbv zeta in Hkind.
      destruct (Prompt.is_command _ _ _ 6 _ || Prompt.is_command _ _ _ 4 _);
        [destruct Hkind as [? ->]; auto|].
      destruct (Prompt.is_command _ _ _ 12 _); [destruct Hkind as [? ->]; auto|].
      destruct Hkind as [? Htail].
      destruct (Prompt.is_command _ _ _ 11 _); [rewrite Htail; auto|].
      destruct (Prompt.is_command _ _ _ 19 _); rewrite Htail; auto. }
    split_and!; [|intros running Hrun|done].
    + change (Prompt.Info :: ?x) with ([Prompt.Info] ++ x).
      rewrite !count_app, count_cancelled_cancels, Htail.
      destruct (Prompt.task st); cbn; lia.
    + rewrite Hrun, !elem_of_app. right; left.
      apply list_elem_of_further, list_elem_of_here.
Qed.

(** X19. "cancel", "stop" and "show history" (in any letter case, by
    [lower]) leave the box without a task and start no thread. *)
Theorem system_commands_start_nothing
    (env : Prompt.Env) (live_urls : list string) (tag : option string)
    (prompt : string) (request : TvMovie.ChatRequest) (st : Prompt.State) :
  Prompt.is_system_command env (Prompt.strip env prompt) = true →
  let st' := Prompt._ask_question env live_urls tag prompt request st in
  Prompt.task st' = None
  ∧ Prompt.count Prompt.is_start (Prompt.added st st') = 0.
Proof.
  intros Hsys st'. subst st'.
  assert (Prompt.len env (Prompt.strip env prompt) ≠ 0) as Hnz.
  { unfold Prompt.is_system_command in Hsys.
    apply orb_true_iff in Hsys as [[H|H]%orb_true_iff|H];
      apply is_command_len in H; lia. }
  destruct (_ask_question_cases env live_urls tag prompt request st Hnz)
    as (_ & tail & Heff & Hkind).
  rewrite (added_tell _ _ _ Heff).
  unfold Prompt.is_system_command in Hsys.
  assert (Prompt.task
            (Prompt._ask_question env live_urls tag prompt request st) = None
          ∧ Prompt.count Prompt.is_start tail = 0) as [Htask Htail].
  { cbv zeta in Hkind.
    destruct (Prompt.is_command _ _ _ 6 _ || Prompt.is_command _ _ _ 4 _);
      [by destruct Hkind as [? ->]|].
    cbn in Hsys. rewrite Hsys in Hkind. by destruct Hkind as [? ->]. }
  split; [done|].
  change (Prompt.Info :: ?x) with ([Prompt.Info] ++ x).
  by rewrite !count_app, count_cancelled_starts, Htail.
Qed.

(** X20. "show history" answers with the table of the history as it was,
    followed by the row of this very command: it is recorded before the
    table is drawn. *)
Theorem show_history_lists_itself
    (env : Prompt.Env) (live_urls : list string) (tag : option string)
    (prompt : string) (request : TvMovie.ChatRequest) (st : Prompt.State) :
  let keywords := Prompt.strip env prompt in
  Prompt.is_command env keywords (Prompt.len env keywords) 12 "show history"
    = true →
  let st' := Prompt._ask_question env live_urls tag prompt request st in
  ∃ before,
    Prompt.added st st'
      = before
          ++ [Prompt.Respond
                (Prompt._respond_history_text env (Prompt.history st)
                   +:+ Prompt.history_row env
                         (TvMovie.HistoryManager.mkCommand (TvMovie.sender request)
                            (TvMovie.group request) (TvMovie.time request)
                            keywords))
                request].
Proof.
  intros keywords Hshow st'. subst st'.
  pose proof (is_command_len _ _ _ _ _ Hshow) as Hlen.
  assert (Prompt.len env keywords ≠ 0) as Hnz by lia.
  destruct (_ask_question_cases env live_urls tag prompt request st Hnz)
    as (_ & tail & Heff & Hkind).
  fold keywords in Hkind.
  rewrite (is_command_other env keywords _ 12 6 _ "cancel" Hshow),
    (is_command_other env keywords _ 12 4 _ "stop" Hshow), Hshow in Hkind
    by lia.
  cbn in Hkind. destruct Hkind as [_ ->].
  rewrite (added_tell _ _ _ Heff). eexists. rewrite !app_assoc.
  f_equal. f_equal. f_equal.
  unfold Prompt._respond_history_text. by rewrite history_rows_app.
Qed.

(** X21. A prompt that is none of the five commands installs a task for
    its keywords and starts exactly one thread, on the search of that
    task by this box. *)
Theorem ordinary_prompt_starts_one_search
    (env : Prompt.Env) (live_urls : list string) (tag : option string)
    (prompt : string) (request : TvMovie.ChatRequest) (st : Prompt.State) :
  let keywords := Prompt.strip env prompt in
  let kw_len := Prompt.len env keywords in
  kw_len ≠ 0 →
  Prompt.is_system_command env keywords = false →
  Prompt.is_command env keywords kw_len 11 "tv channels" = false →
  Prompt.is_command env keywords kw_len 19 "live stream sources" = false →
  let st' := Prompt._ask_question env live_urls tag prompt request st in
  Prompt.task st' = Some (TvMovie.mkTask keywords request)
  ∧ Prompt.count Prompt.is_start (Prompt.added st st') = 1
  ∧ Prompt.Start (Prompt.BoxSearch (TvMovie.mkTask keywords request))
      ∈ Prompt.added st st'.
Proof.
  intros keywords kw_len Hnz Hsys Htv Hlive st'. subst st'.
  destruct (_ask_question_cases env live_urls tag prompt request st Hnz)
    as (_ & tail & Heff & Hkind).
  fold keywords kw_len in Hkind.
  unfold Prompt.is_system_command in Hsys. fold kw_len in Hsys.
  apply orb_false_iff in Hsys as [Hcs Hshow].
  rewrite Hcs, Hshow, Htv, Hlive in Hkind. destruct Hkind as [Htask ->].
  rewrite (added_tell _ _ _ Heff). split_and!; [done| |].
  - change (Prompt.Info :: ?x) with ([Prompt.Info] ++ x).
    by rewrite !count_app, count_cancelled_starts.
  - rewrite !elem_of_app. right; right. apply list_elem_of_here.
Qed.

(** X22. "live stream sources" installs a task for the prompt, like a
    search, but starts no thread for it: it answers at once with the
    sources, and the task stays installed until the next prompt cancels
    it. *)
Theorem live_sources_starts_nothing
    (env : Prompt.Env) (live_urls : list string) (tag : option string)
    (prompt : string) (request : TvMovie.ChatRequest) (st : Prompt.State) :
  let keywords := Prompt.strip env prompt in
  Prompt.is_command env keywords (Prompt.len env keywords) 19
    "live stream sources" = true →
  let st' := Prompt._ask_question env live_urls tag prompt request st in
  Prompt.task st' = Some (TvMovie.mkTask keywords request)
  ∧ Prompt.count Prompt.is_start (Prompt.added st st') = 0
  ∧ ∃ text, Prompt.RespondLives text request "yes" tag live_urls
              ∈ Prompt.added st st'.
Proof.
  intros keywords Hlive st'. subst st'.
  pose proof (is_command_len _ _ _ _ _ Hlive) as Hlen.
  assert (Prompt.len env keywords ≠ 0) as Hnz by lia.
  destruct (_ask_question_cases env live_urls tag prompt request st Hnz)
    as (_ & tail & Heff & Hkind).
  fold keywords in Hkind.
  rewrite (is_command_other env keywords _ 19 6 _ "cancel" Hlive),
    (is_command_other env keywords _ 19 4 _ "stop" Hlive),
    (is_command_other env keywords _ 19 12 _ "show history" Hlive),
    (is_command_other env keywords _ 19 11 _ "tv channels" Hlive), Hlive
    in Hkind by lia.
  cbn in Hkind. destruct Hkind as [Htask ->].
  rewrite (added_tell _ _ _ Heff). split_and!; [done| |].
  - change (Prompt.Info :: ?x) with ([Prompt.Info] ++ x).
    by rewrite !count_app, count_cancelled_starts.
  - eexists. rewrite !elem_of_app. right; right.
    do 3 apply list_elem_of_further. apply list_elem_of_here.
Qed.

(** * The further theorems at concrete inputs *)

Section MoreWitnesses.
Import TvMovie TvMovieSpec DispatchSpec Scenario Scenario2.

Lemma search_keeps_engines_witness :
  ∃ l', lists (SearchBox._search third_succeeds None alice matrix w0).2 !! 0
          = Some l'
    ∧ l' ≡ₚ [A; B; C] ∧ length l' = 3.
Proof.
  apply (search_keeps_engines third_succeeds None alice matrix w0 [A; B; C]).
  reflexivity.
Defined.

Lemma search_calls_a_prefix_in_order_witness :
  ∃ k, k ≤ 3
    ∧ calls (new_events w0
               (SearchBox._search second_cancelled None alice matrix w0).2)
      = numbered_from 0 (take k [A; B; C]).
Proof.
  apply (search_calls_a_prefix_in_order second_cancelled None alice matrix w0
           [A; B; C]).
  reflexivity.
Defined.

Lemma search_success_reports_witness :
  let evs := new_events w0
               (SearchBox._search third_succeeds None alice matrix w0).2 in
  ReportSuccess "SearchBox" "gamma" ∈ evs
  ∧ count_events is_success_report evs = 1
  ∧ count_events is_failure_report evs = 2
  ∧ count_events is_crash evs = 0
  ∧ count_events is_response evs = 0.
Proof.
  apply (search_success_reports third_succeeds None alice matrix w0
           [A; B; C] 2 C).
  - reflexivity.
  - reflexivity.
  - intros [|[|j]] e Hj He; [injection He as <-|injection He as <-|lia];
      unfold continues, CANCELLED_CODE; cbn; lia.
  - reflexivity.
Defined.

Lemma search_zero_code_returns_true_witness :
  ∃ w', SearchBox._search none_found None alice matrix w0 = (Ok true, w')
    ∧ lists w' = lists w0
    ∧ count_events is_response (new_events w0 w') = 1
    ∧ count_events is_crash (new_events w0 w') = 0
    ∧ count_events is_success_report (new_events w0 w') = 0.
Proof.
  apply (search_zero_code_returns_true none_found None alice matrix w0
           [A; B; C] 0 A).
  - reflexivity.
  - intros [|[|[|j]]] e He; [injection He as <-..|discriminate];
      unfold continues, CANCELLED_CODE; cbn; lia.
  - reflexivity.
  - reflexivity.
Defined.

Lemma search_gives_one_verdict_witness :
  let evs := new_events w0
               (SearchBox._search all_down None alice matrix w0).2 in
  count_events is_success_report evs + count_events is_crash evs ≤ 1
  ∧ count_events is_response evs ≤ 1
  ∧ (count_events is_success_report evs = 1 → count_events is_response evs = 0)
  ∧ (count_events is_crash evs = 1 → count_events is_response evs = 1).
Proof.
  apply (search_gives_one_verdict all_down None alice matrix w0 [A; B; C]).
  reflexivity.
Defined.

Lemma search_crash_iff_all_reported_failed_witness :
  let evs := new_events w0
               (SearchBox._search all_down None alice matrix w0).2 in
  count_events is_failure_report evs ≤ 3
  ∧ (count_events is_crash evs = 1 ↔ count_events is_failure_report evs = 3).
Proof.
  apply (search_crash_iff_all_reported_failed all_down None alice matrix w0
           [A; B; C]).
  - reflexivity.
  - discriminate.
Defined.

Lemma box_list_is_a_snapshot_witness :
  let s' := run goes_on (run two_boxes boot) in
  made s' !! 0 = Some (SearchBox.mk "alice" 1)
  ∧ lists (world s') !! 1 = Some [A; B; C].
Proof.
  apply (box_list_is_a_snapshot two_boxes goes_on 0 (SearchBox.mk "alice" 1)
           [A; B; C]).
  - reflexivity.
  - reflexivity.
  - reflexivity.
Defined.

End MoreWitnesses.

Section MorePoolWitnesses.
Import FakeOpen FakeOpenSpec PoolSpec Scenario Scenario2.

Lemma pool_boxes_not_shared_witness :
  let p := pool_run [GetBox 0 "alice"; GetBox 5 "bob"] ChatBoxPool.init in
  ChatBoxPool.weak_get "alice" p = Some 0
  ∧ ChatBoxPool.weak_get "bob" p = Some 1
  ∧ 0 ≠ 1.
Proof.
  split_and!; [reflexivity..|].
  apply (pool_boxes_not_shared [GetBox 0 "alice"; GetBox 5 "bob"]
           "alice" "bob" 0 1).
  - discriminate.
  - reflexivity.
  - reflexivity.
Defined.

Lemma asked_box_survives_purge_witness :
  let asked := pool_step (Touch 100 silent "hi" 0) alice_first in
  let p' := (ChatBoxPool.purge 36100 asked).2 in
  ChatBoxPool.boxes p' !! 0 = Some (ChatBox.mk (100 + 36000))
  ∧ ChatBoxPool.weak_get "alice" p' = Some 0.
Proof.
  apply (asked_box_survives_purge alice_first 0 100 36100 silent "hi" "alice").
  - eexists. reflexivity.
  - reflexivity.
  - intros Hgt. vm_compute in Hgt. discriminate.
Defined.

Lemma scans_are_60_seconds_apart_witness :
  ChatBoxPool.purge 40 alice_first = (true, scanned)
  ∧ (ChatBoxPool.purge 100 (pool_run later scanned)).1 = true
  ∧ (40 + 60 <= 100)%Q.
Proof.
  split_and!; [reflexivity..|].
  apply (scans_are_60_seconds_apart alice_first scanned
           (ChatBoxPool.purge 100 (pool_run later scanned)).2 40 100 later).
  - reflexivity.
  - reflexivity.
Defined.

Lemma same_user_requests_share_box_witness :
  let c1 := (ChatClient.process noon silent two_queued).2 in
  ∃ box,
    (ChatBoxPool.get_box (at_init noon) "alice"
       (ChatClient.box_pool two_queued)).1 = Some box
    ∧ ChatClient.task_pool c1 = [mkChatTask (mkChatRequest "there" "alice") 8]
    ∧ ChatBoxPool.get_box (at_init noon) "alice" (ChatClient.box_pool c1)
      = (Some box, ChatClient.box_pool c1).
Proof.
  apply (same_user_requests_share_box noon noon silent two_queued
           (mkChatTask (mkChatRequest "hi" "alice") 7)
           (mkChatTask (mkChatRequest "there" "alice") 8) []).
  - reflexivity.
  - reflexivity.
Defined.

Lemma get_box_leaves_other_users_witness :
  let p := pool_run (GetBox 0 "alice" :: later) ChatBoxPool.init in
  let p' := (ChatBoxPool.get_box 300 "carol" p).2 in
  ChatBoxPool.weak_get "bob" p' = ChatBoxPool.weak_get "bob" p
  ∧ ChatBoxPool.boxes p' !! 0 = Some (ChatBox.mk (100 + 36000)).
Proof.
  destruct (get_box_leaves_other_users (GetBox 0 "alice" :: later) 300 "carol")
    as (Hother & Hboxes & _).
  split.
  - apply Hother. discriminate.
  - apply Hboxes. reflexivity.
Defined.

Lemma busy_worker_never_evicts_witness :
  let c' := (ChatClient.process (mkClock 99999 99999 99999) silent alice_again).2 in
  is_Some (ChatBoxPool.boxes (ChatClient.box_pool c') !! 0)
  ∧ ChatBoxPool.next_purge_time (ChatClient.box_pool c')
      = ChatBoxPool.next_purge_time (ChatClient.box_pool alice_again).
Proof.
  apply (busy_worker_never_evicts (mkClock 99999 99999 99999) silent alice_again
           (mkChatTask (mkChatRequest "again" "alice") 9) [] 0).
  - reflexivity.
  - eexists. reflexivity.
Defined.

End MorePoolWitnesses.

Section PromptWitnesses.
Import TvMovie Prompt Scenario2.

Lemma prompt_cancels_running_task_once_witness :
  let st' := _ask_question plain [] None "matrix" ask searching in
  count is_cancel (added searching st') = 1
  ∧ Cancel (mkTask "dune" ask) ∈ added searching st'
  ∧ task st' = Some (mkTask "matrix" ask).
Proof.
  destruct (prompt_cancels_running_task_once plain [] None "matrix" ask searching)
    as [_ Hfull].
  destruct Hfull as (Hcount & Hcancel & _); [discriminate|].
  split_and!; [exact Hcount|by apply Hcancel|reflexivity].
Defined.

Lemma system_commands_start_nothing_witness :
  let st' := _ask_question plain [] None "stop" ask searching in
  task st' = None ∧ count is_start (added searching st') = 0.
Proof.
  apply (system_commands_start_nothing plain [] None "stop" ask searching).
  reflexivity.
Defined.

Lemma show_history_lists_itself_witness :
  let st' := _ask_question plain [] None "show history" ask searching in
  ∃ before,
    added searching st'
      = before
          ++ [Respond
                (_respond_history_text plain (history searching)
                   +:+ history_row plain
                         (HistoryManager.mkCommand "alice" None 0%Q "show history"))
                ask].
Proof.
  apply (show_history_lists_itself plain [] None "show history" ask searching).
  reflexivity.
Defined.

Lemma ordinary_prompt_starts_one_search_witness :
  let st' := _ask_question plain [] None "matrix" ask searching in
  task st' = Some (mkTask "matrix" ask)
  ∧ count is_start (added searching st') = 1
  ∧ Start (BoxSearch (mkTask "matrix" ask)) ∈ added searching st'.
Proof.
  apply (ordinary_prompt_starts_one_search plain [] None "matrix" ask searching).
  - discriminate.
  - reflexivity.
  - reflexivity.
  - reflexivity.
Defined.

Lemma live_sources_starts_nothing_witness :
  let st' := _ask_question plain ["http://tv.example/a"] (Some "t1")
               "live stream sources" ask searching in
  task st' = Some (mkTask "live stream sources" ask)
  ∧ count is_start (added searching st') = 0
  ∧ ∃ text, RespondLives text ask "yes" (Some "t1") ["http://tv.example/a"]
              ∈ added searching st'.
Proof.
  apply (live_sources_starts_nothing plain ["http://tv.example/a"] (Some "t1")
           "live stream sources" ask searching).
  reflexivity.
Defined.

End PromptWitnesses.

(** * An accepted task that is never answered *)

Section Dropped.
Import FakeOpen FakeOpenSpec Scenario Scenario2.

(** With nothing queued, the worker invokes no callback and queues
    nothing, however often it runs. *)
Lemma idle_worker_answers_nothing (turns : list (Clock * Backend))
    (c : ChatClient.t) :
  ChatClient.task_pool c = [] →
  ChatClient.task_pool (client_run (worker turns) c) = []
  ∧ ChatClient.log (client_run (worker turns) c) = ChatClient.log c.
Proof.
  revert c. induction turns as [|[clock gpt] turns IH]; intros c Hidle; [done|].
  destruct (process_idle clock gpt c Hidle) as (c' & Hp & Hrest & Hlog).
  unfold worker. rewrite fmap_cons, client_run_cons. cbn [client_step fst snd].
  rewrite Hp. cbn [snd]. fold (worker turns).
  destruct (IH c' Hrest) as [-> ->]. by rewrite Hlog.
Qed.

End Dropped.

(** C6, as the claim states it, does not hold: [process] has no handler
    around the backend call. The request of "alice" is accepted into the
    queue; the backend raises; the exception leaves [process], the task
    is out of the queue and its callback has not been invoked, and no
    later run of the worker invokes it. *)
Lemma accepted_task_dropped_when_backend_raises :
  let task := FakeOpen.mkChatTask (FakeOpen.mkChatRequest "hi" "alice") 7 in
  let c' := (FakeOpen.ChatClient.process Scenario.noon Scenario2.broken
               Scenario.one_queued).2 in
  FakeOpen.ChatClient.task_pool Scenario.one_queued = [task]
  ∧ (FakeOpen.ChatClient.process Scenario.noon Scenario2.broken
       Scenario.one_queued).1 = Raise "timed out"
  ∧ FakeOpen.ChatClient.task_pool c' = []
  ∧ FakeOpenSpec.answered (FakeOpen.ChatClient.log c') = []
  ∧ (∀ turns,
       FakeOpenSpec.answered
         (FakeOpen.ChatClient.log
            (FakeOpenSpec.client_run (FakeOpenSpec.worker turns) c')) = [])
  ∧ ¬ ∃ self' errors,
        FakeOpen.ChatClient.process Scenario.noon Scenario2.broken
          Scenario.one_queued = (Ok true, self')
        ∧ FakeOpen.ChatClient.log self'
            = FakeOpen.ChatClient.log Scenario.one_queued ++ errors
                ++ [FakeOpenSpec.response task Scenario2.broken].
Proof.
  cbv zeta. split_and!; [reflexivity..| |].
  - intros turns.
    destruct (idle_worker_answers_nothing turns
                (FakeOpen.ChatClient.process Scenario.noon Scenario2.broken
                   Scenario.one_queued).2 eq_refl) as [_ ->].
    reflexivity.
  - intros (self' & errors & Hp & _). vm_compute in Hp. discriminate.
Qed.
